(** * Egg inventory (App.js): the record store and the schema manager

    App.js keeps one SQLite table, [daily_records], and drives it with a
    handful of SQL statements issued from React callbacks.  This file embeds
    the table, each statement the callbacks issue, and the JavaScript around
    them, and proves the properties of the persistence layer.

    Conventions of the embedding.
    - An INTEGER column holds a [Z], a REAL column a rational [Qc].  The
      callbacks are embedded twice.  First on numbers, computed exactly: a
      field is blank or holds a number.  Then, in [Form], on any text: a
      field can hold a text that is not a number, read as NaN and stored
      as NULL, and the counts are rounded to binary64 as [parseInt] and
      the subtraction of the check round them; the two embeddings agree
      on counts up to 2^52 ([saveDailyRecord_field_of]).  Amounts are
      exact rationals throughout, and the infinities are left out.
      [Int64] is the summary with the 64-bit integers of the engine.
      A column without NOT NULL is an [option]; [None] is NULL.
    - A statement is a function on the table.  A promise that rejects is
      [Err]; [.then]/[.catch] chains are matches on the result.
    - [CURRENT_TIMESTAMP] is an argument [now] of the statements that
      insert a row.
    - The text of an alert is not kept, only which alert was shown. *)

From Stdlib Require Import ZArith QArith Qcanon DecimalString.
From stdpp Require Import base list strings gmap sorting.

Open Scope Z_scope.

(** ** Results of statements *)

Inductive error :=
  | UniqueConstraintFailed (column : string)
  | DuplicateColumnName (column : string)
  | NoSuchColumn (column : string)
  | IntegerOverflow.

Inductive result (A : Type) :=
  | Ok (a : A)
  | Err (e : error).
Arguments Ok {A} a.
Arguments Err {A} e.

(** What [runAsync] resolves to; the callbacks read only [changes]. *)
Record run_result := RunResult { changes : nat }.

Inductive alert := AlertError | AlertSuccess | AlertInfo | AlertExport.

(** ** JavaScript truthiness and [x || d] *)

Class Truthy (A : Type) := truthy : A → bool.

#[global] Instance Z_truthy : Truthy Z := λ n, negb (n =? 0).
#[global] Instance Qc_truthy : Truthy Qc := λ q, negb (Qc_eq_bool q 0).
#[global] Instance string_truthy : Truthy string :=
  λ s, match s with EmptyString => false | String _ _ => true end.
(** [x || d] where [x] was read from a nullable column: [null] is falsy. *)
Definition js_or {A} `{Truthy A} (x : option A) (d : A) : A :=
  match x with
  | Some a => if truthy a then a else d
  | None => d
  end.

(** A JS number that holds an integer. *)
Definition Number_of_Z (n : Z) : Qc := Q2Qc (inject_Z n).

(** ** The table [daily_records] under the schema of [createNewTable] *)

Module Row.
Record t := Make {
  id : Z;                       (* INTEGER PRIMARY KEY AUTOINCREMENT *)
  date : string;                (* TEXT UNIQUE *)
  produced_eggs : option Z;     (* INTEGER DEFAULT 0 *)
  breakages : option Z;         (* INTEGER DEFAULT 0 *)
  sold_eggs : option Z;         (* INTEGER DEFAULT 0 *)
  price_per_egg : option Qc;    (* REAL DEFAULT 0 *)
  credit_amount : option Qc;    (* REAL DEFAULT 0 *)
  credit_name : option string;  (* TEXT DEFAULT '' *)
  created_at : string           (* TIMESTAMP DEFAULT CURRENT_TIMESTAMP *)
}.

#[global] Instance eq_dec : EqDecision t.
Proof. solve_decision. Defined.

(** SET credit_amount = ?, credit_name = ? *)
Definition set_credit (amount : Qc) (name : string) (r : t) : t :=
  {| id := id r; date := date r;
     produced_eggs := produced_eggs r; breakages := breakages r;
     sold_eggs := sold_eggs r; price_per_egg := price_per_egg r;
     credit_amount := Some amount; credit_name := Some name;
     created_at := created_at r |}.

(** The columns an INSERT of the application names. *)
Definition values (r : t) :=
  (date r, produced_eggs r, breakages r, sold_eggs r,
   price_per_egg r, credit_amount r, credit_name r).
End Row.

(** [rows] is the table in rowid order; [sqlite_sequence] is the largest
    rowid the table ever held, which AUTOINCREMENT keeps. *)
Record table := Table { rows : list Row.t; sqlite_sequence : Z }.

Definition empty_table : table := Table [] 0.

Definition max_rowid (l : list Row.t) : Z :=
  foldr (λ r m, Z.max (Row.id r) m) 0 l.

(** The rowid AUTOINCREMENT gives to the next inserted row. *)
Definition next_rowid (t : table) : Z :=
  Z.max (sqlite_sequence t) (max_rowid (rows t)) + 1.

(** The WHERE clauses [date = ?] and [id = ?]. *)
Definition has {K} (column : Row.t → K) (k : K) (r : Row.t) : Prop :=
  column r = k.

#[global] Instance has_dec {K} `{EqDecision K} (column : Row.t → K) k r :
  Decision (has column k r).
Proof. unfold has. apply _. Defined.

(** The constraints the engine maintains: UNIQUE(date) and the primary key. *)
Definition unique_dates (t : table) : Prop := NoDup (Row.date <$> rows t).
Definition unique_ids (t : table) : Prop := NoDup (Row.id <$> rows t).

(** ** The statements of the record store *)

Section Statements.
Context (now : string).

Definition new_row (t : table) (date : string)
    (produced_eggs breakages sold_eggs : Z)
    (price_per_egg credit_amount : Qc) (credit_name : string) : Row.t :=
  {| Row.id := next_rowid t; Row.date := date;
     Row.produced_eggs := Some produced_eggs;
     Row.breakages := Some breakages;
     Row.sold_eggs := Some sold_eggs;
     Row.price_per_egg := Some price_per_egg;
     Row.credit_amount := Some credit_amount;
     Row.credit_name := Some credit_name;
     Row.created_at := now |}.

(** INSERT OR REPLACE INTO daily_records (date, produced_eggs, breakages,
    sold_eggs, price_per_egg, credit_amount, credit_name)
    VALUES (?, ?, ?, ?, ?, ?, ?):
    the row that conflicts on [date] is deleted, then a row is inserted. *)
Definition insert_or_replace (date : string)
    (produced_eggs breakages sold_eggs : Z)
    (price_per_egg credit_amount : Qc) (credit_name : string)
    (t : table) : result (table * run_result) :=
  let r := new_row t date produced_eggs breakages sold_eggs
             price_per_egg credit_amount credit_name in
  Ok ({| rows := filter (λ x, ¬ has Row.date date x) (rows t) ++ [r];
         sqlite_sequence := Row.id r |},
      {| changes := 1 |}).

(** INSERT INTO daily_records (date, ...) VALUES (?, 0, 0, 0, 0, ?, ?) and
    the like: fails on a row with the same [date]. *)
Definition insert (date : string)
    (produced_eggs breakages sold_eggs : Z)
    (price_per_egg credit_amount : Qc) (credit_name : string)
    (t : table) : result (table * run_result) :=
  if decide (Exists (has Row.date date) (rows t))
  then Err (UniqueConstraintFailed "daily_records.date")
  else
    let r := new_row t date produced_eggs breakages sold_eggs
               price_per_egg credit_amount credit_name in
    Ok ({| rows := rows t ++ [r]; sqlite_sequence := Row.id r |},
        {| changes := 1 |}).
End Statements.

(** SELECT * FROM daily_records WHERE date = ?, first row ([getFirstAsync]). *)
Definition select_by_date (date : string) (t : table) : option Row.t :=
  head (filter (has Row.date date) (rows t)).

(** UPDATE daily_records SET credit_amount = ?, credit_name = ? WHERE date = ? *)
Definition update_credit (credit_amount : Qc) (credit_name : string)
    (date : string) (t : table) : result (table * run_result) :=
  Ok ({| rows := (λ r, if decide (has Row.date date r)
                       then Row.set_credit credit_amount credit_name r
                       else r) <$> rows t;
         sqlite_sequence := sqlite_sequence t |},
      {| changes := length (filter (has Row.date date) (rows t)) |}).

(** DELETE FROM daily_records WHERE id = ? *)
Definition delete_by_id (id : Z) (t : table) : result (table * run_result) :=
  Ok ({| rows := filter (λ r, ¬ has Row.id id r) (rows t);
         sqlite_sequence := sqlite_sequence t |},
      {| changes := length (filter (has Row.id id) (rows t)) |}).


(** ** The callbacks of the component that write the table

    A numeric form field is [None] when it is blank, otherwise the number
    [parseInt]/[parseFloat] reads from it, and the callbacks compute with
    these numbers exactly: this is the code on a form whose fields are
    blank or hold numbers that binary64 holds exactly.  [Form], further
    down, is the code on any text.  Each callback returns the table it
    leaves and the alert it shows. *)

(** The button pressed in a confirmation dialog: Cancel, or the other one
    (OK, Delete). *)
Inductive button := Cancel | Confirm.

Section Callbacks.
Context (now : string).

(** [saveDailyRecord]: the guard on the two required fields, the defaults,
    the check of the sold eggs, then the INSERT OR REPLACE. *)
Definition saveDailyRecord (date : string)
    (producedEggs breakages soldEggs : option Z)
    (pricePerEgg creditAmount : option Qc) (creditName : string)
    (t : table) : table * option alert :=
  match producedEggs, pricePerEgg with
  | Some produced, Some priceValue =>
      let breakagesValue := js_or breakages 0 in
      let soldEggsValue := js_or soldEggs 0 in
      let creditAmountValue := js_or creditAmount 0%Qc in
      let availableEggs := produced - breakagesValue in
      if soldEggsValue >? availableEggs then (t, Some AlertError)
      else
        match insert_or_replace now date produced breakagesValue
                soldEggsValue priceValue creditAmountValue creditName t with
        | Ok (t', res) =>
            if (0 <? changes res)%nat then (t', Some AlertSuccess)
            else (t', None)
        | Err _ => (t, Some AlertError)
        end
  | _, _ => (t, Some AlertError)
  end.

(** The [onPress] of the OK button of [addCreditOnly]: read the row of the
    date, then UPDATE its two credit columns or INSERT a row of zeros. *)
Definition addCreditOnly_onPress (date : string) (amount : Qc)
    (creditName : string) (t : table) : table * option alert :=
  let statement :=
    match select_by_date date t with
    | Some existingRecord =>
        let newCreditAmount :=
          (js_or (Row.credit_amount existingRecord) 0 + amount)%Qc in
        let newCreditName :=
          match Row.credit_name existingRecord with
          | Some name =>
              if truthy name then name +:+ ", " +:+ creditName
              else creditName
          | None => creditName
          end in
        update_credit newCreditAmount newCreditName date t
    | None => insert now date 0 0 0 0%Qc amount creditName t
    end in
  match statement with
  | Ok (t', res) =>
      if (0 <? changes res)%nat then (t', Some AlertSuccess)
      else (t', None)
  | Err _ => (t, Some AlertError)
  end.

(** [addCreditOnly]: the guard, then the confirmation dialog. *)
Definition addCreditOnly (pressed : button) (date : string)
    (creditAmount : option Qc) (creditName : string)
    (t : table) : table * option alert :=
  match creditAmount with
  | None => (t, Some AlertError)
  | Some amount =>
      if decide (amount ≤ 0)%Qc then (t, Some AlertError)
      else if truthy creditName then
        match pressed with
        | Cancel => (t, None)
        | Confirm => addCreditOnly_onPress date amount creditName t
        end
      else (t, Some AlertError)
  end.
End Callbacks.

(** [deleteRecord]: the confirmation dialog, then the DELETE; the success
    alert does not look at [changes]. *)
Definition deleteRecord (pressed : button) (id : Z)
    (t : table) : table * option alert :=
  match pressed with
  | Cancel => (t, None)
  | Confirm =>
      match delete_by_id id t with
      | Ok (t', _) => (t', Some AlertSuccess)
      | Err _ => (t, None)
      end
  end.

(** ** The summary

    SELECT COALESCE(SUM(produced_eggs), 0), COALESCE(SUM(breakages), 0),
    COALESCE(SUM(sold_eggs), 0), COALESCE(SUM(sold_eggs * price_per_egg), 0),
    COALESCE(SUM(credit_amount), 0) FROM daily_records

    [calculateSummary] below is the row this statement returns, the sums
    being taken without bound; [Int64.calculateSummary] further down is the
    statement with the 64-bit integers of the engine, which can fail. *)

Record summary := Summary {
  totalProduced : Z;
  totalBreakages : Z;
  totalSold : Z;
  totalCashSales : Qc;
  totalCredits : Qc
}.

(** SUM skips NULL and is NULL when no row contributes. *)
Definition SUM {A} (add : A → A → A) (column : list (option A)) : option A :=
  match omap (λ v, v) column with
  | [] => None
  | v :: vs => Some (foldl add v vs)
  end.

Definition COALESCE {A} (x : option A) (d : A) : A :=
  match x with Some v => v | None => d end.

(** [sold_eggs * price_per_egg]: NULL when an operand is NULL. *)
Definition sold_times_price (r : Row.t) : option Qc :=
  match Row.sold_eggs r, Row.price_per_egg r with
  | Some s, Some p => Some (Number_of_Z s * p)%Qc
  | _, _ => None
  end.

Definition calculateSummary (t : table) : summary :=
  {| totalProduced := COALESCE (SUM Z.add (Row.produced_eggs <$> rows t)) 0;
     totalBreakages := COALESCE (SUM Z.add (Row.breakages <$> rows t)) 0;
     totalSold := COALESCE (SUM Z.add (Row.sold_eggs <$> rows t)) 0;
     totalCashSales :=
       COALESCE (SUM Qcplus (sold_times_price <$> rows t)) 0%Qc;
     totalCredits :=
       COALESCE (SUM Qcplus (Row.credit_amount <$> rows t)) 0%Qc |}.

(** ** The summary with the integers of the engine

    An INTEGER of SQLite is a 64-bit signed integer, and [sum()] over
    integers raises "integer overflow" as soon as its running sum leaves
    their range; the sum of a REAL column, or of a product by a REAL, is a
    floating-point sum and raises nothing.  [calculateSummary] above is what
    the statement returns when it returns. *)

Module Int64.

Definition range (n : Z) : Prop := - 2 ^ 63 ≤ n < 2 ^ 63.

#[global] Instance range_dec (n : Z) : Decision (range n).
Proof. unfold range. apply _. Defined.

(** The running sum, from [acc], over the values of the column that are not
    NULL, in the order of the rows. *)
Fixpoint sum_from (acc : Z) (values : list Z) : result Z :=
  match values with
  | [] => Ok acc
  | v :: values' =>
      if decide (range (acc + v)) then sum_from (acc + v) values'
      else Err IntegerOverflow
  end.

(** [sum()] over an INTEGER column: NULL when no row contributes. *)
Definition sum (column : list (option Z)) : result (option Z) :=
  match omap (λ v, v) column with
  | [] => Ok None
  | values =>
      match sum_from 0 values with
      | Ok n => Ok (Some n)
      | Err e => Err e
      end
  end.

(** The SELECT of [calculateSummary]: it rejects when one of the three
    integer sums overflows. *)
Definition calculateSummary (t : table) : result summary :=
  match sum (Row.produced_eggs <$> rows t) with
  | Err e => Err e
  | Ok produced =>
      match sum (Row.breakages <$> rows t) with
      | Err e => Err e
      | Ok broken =>
          match sum (Row.sold_eggs <$> rows t) with
          | Err e => Err e
          | Ok sold =>
              Ok {| totalProduced := COALESCE produced 0;
                    totalBreakages := COALESCE broken 0;
                    totalSold := COALESCE sold 0;
                    totalCashSales :=
                      COALESCE (SUM Qcplus (sold_times_price <$> rows t)) 0%Qc;
                    totalCredits :=
                      COALESCE (SUM Qcplus (Row.credit_amount <$> rows t))
                        0%Qc |}
          end
      end
  end.

End Int64.

(** ** Reading the table in date order *)

Definition date_le (r1 r2 : Row.t) : Prop :=
  String.le (Row.date r1) (Row.date r2).

#[global] Instance date_le_dec : RelDecision date_le.
Proof. intros r1 r2. unfold date_le. apply _. Defined.

(** SELECT * FROM daily_records ORDER BY date (the BINARY collation compares
    the bytes of the two texts, as [String.compare] does). *)
Definition select_order_by_date (t : table) : list Row.t :=
  merge_sort date_le (rows t).

(** SELECT * FROM daily_records ORDER BY date DESC LIMIT 30 *)
Definition loadDailyRecords (t : table) : list Row.t :=
  take 30 (reverse (select_order_by_date t)).

(** ** The export *)

Definition LF : string := String (Ascii.ascii_of_nat 10) EmptyString.
Definition DQUOTE : string := String (Ascii.ascii_of_nat 34) EmptyString.

Section ExportData.
(** How a template literal prints a number ([Number::toString]). *)
Context (Number_toString : Qc → string).

Definition csv_header : string :=
  "Date,Produced Eggs,Breakages,Sold Eggs,Remaining Eggs,Price Per Egg,Cash Sales,Credit Amount,Credit Name"
  +:+ LF.

(** The text one iteration of [records.forEach] appends to [csv]. *)
Definition csv_row (record : Row.t) : string :=
  let remainingEggs :=
    js_or (Row.produced_eggs record) 0 - js_or (Row.breakages record) 0
    - js_or (Row.sold_eggs record) 0 in
  let cashSales :=
    (Number_of_Z (js_or (Row.sold_eggs record) 0%Z)
     * js_or (Row.price_per_egg record) 0)%Qc in
  Row.date record +:+ ","
  +:+ Number_toString (Number_of_Z (js_or (Row.produced_eggs record) 0)) +:+ ","
  +:+ Number_toString (Number_of_Z (js_or (Row.breakages record) 0)) +:+ ","
  +:+ Number_toString (Number_of_Z (js_or (Row.sold_eggs record) 0)) +:+ ","
  +:+ Number_toString (Number_of_Z remainingEggs) +:+ ","
  +:+ Number_toString (js_or (Row.price_per_egg record) 0%Qc) +:+ ","
  +:+ Number_toString cashSales +:+ ","
  +:+ Number_toString (js_or (Row.credit_amount record) 0%Qc) +:+ ","
  +:+ DQUOTE +:+ js_or (Row.credit_name record) EmptyString +:+ DQUOTE
  +:+ LF.

(** [exportData]: the alert it shows and the text it logs, if any. *)
Definition exportData (t : table) : alert * option string :=
  let records := select_order_by_date t in
  if decide (length records = 0%nat) then (AlertInfo, None)
  else
    (AlertExport,
     Some (foldl (λ csv record, csv +:+ csv_row record) csv_header records)).
End ExportData.

(** ** The schema manager

    At start-up the table may have been created by an older version of the
    application, so here a table carries its column names and a row maps a
    column name to an SQL value. *)

Module Schema.

Inductive value :=
  | NULL
  | INTEGER (n : Z)
  | REAL (q : Qc)
  | TEXT (s : string).

#[global] Instance value_eq_dec : EqDecision value.
Proof. solve_decision. Defined.

Record table := Table {
  columns : list string;
  rows : list (gmap string value)
}.

(** The database file: [None] while [daily_records] does not exist. *)
Definition database := option table.

(** The statements the schema manager issues. *)
Inductive statement :=
  | AddColumn (name : string) (default : value)
  | BackfillCreditAmount.

(** The column list of CREATE TABLE IF NOT EXISTS daily_records (...). *)
Definition full_schema : list string :=
  ["id"; "date"; "produced_eggs"; "breakages"; "sold_eggs"; "price_per_egg";
   "credit_amount"; "credit_name"; "created_at"].

(** PRAGMA table_info(daily_records), then [columns.map(col => col.name)]. *)
Definition table_info (t : table) : list string := columns t.

(** [columnNames.includes(name)] *)
Definition includes (columnNames : list string) (name : string) : bool :=
  bool_decide (name ∈ columnNames).

Definition column_value (name : string) (r : gmap string value) : value :=
  match r !! name with Some v => v | None => NULL end.

(** [credit_amount = 0] in a WHERE clause. *)
Definition equals_zero (v : value) : bool :=
  match v with
  | INTEGER n => bool_decide (n = 0)
  | REAL q => bool_decide (q = 0%Qc)
  | NULL | TEXT _ => false
  end.

Definition is_not_null (v : value) : bool :=
  match v with NULL => false | _ => true end.

Section Engine.
(** The number SQLite reads from a text that is a well-formed numeric
    literal; [None] for any other text. *)
Context (numeric_literal : string → option Qc).

(** What a column of REAL affinity stores when given [v]. *)
Definition real_affinity (v : value) : value :=
  match v with
  | INTEGER n => REAL (Number_of_Z n)
  | TEXT s => match numeric_literal s with Some q => REAL q | None => TEXT s end
  | NULL | REAL _ => v
  end.

(** UPDATE daily_records SET credit_amount = credits
    WHERE credit_amount = 0 AND credits IS NOT NULL, on one row. *)
Definition backfill_row (r : gmap string value) : gmap string value :=
  if equals_zero (column_value "credit_amount" r)
     && is_not_null (column_value "credits" r)
  then <["credit_amount" := real_affinity (column_value "credits" r)]> r
  else r.

(** One statement on the table; a statement that fails changes nothing.
    Column names are compared as they are written: this is the engine on a
    table without a column that is a name of the migration in another
    case ([no_case_variant] below). *)
Definition exec (s : statement) (t : table) : result table :=
  match s with
  | AddColumn name default =>
      (* ALTER TABLE daily_records ADD COLUMN name ... DEFAULT default *)
      if includes (columns t) name then Err (DuplicateColumnName name)
      else Ok {| columns := columns t ++ [name];
                 rows := (λ r, <[name := default]> r) <$> rows t |}
  | BackfillCreditAmount =>
      if negb (includes (columns t) "credit_amount")
      then Err (NoSuchColumn "credit_amount")
      else if negb (includes (columns t) "credits")
      then Err (NoSuchColumn "credits")
      else Ok {| columns := columns t; rows := backfill_row <$> rows t |}
  end.

(** The [migrations] array of [checkAndMigrateSchema]: the statements it
    has issued, in the order of the [push] calls. *)
Definition migrations (columnNames : list string) : list statement :=
  (if negb (includes columnNames "sold_eggs")
   then [AddColumn "sold_eggs" (INTEGER 0)] else [])
  ++ (if negb (includes columnNames "credit_amount")
      then [AddColumn "credit_amount" (REAL 0)] else [])
  ++ (if negb (includes columnNames "credit_name")
      then [AddColumn "credit_name" (TEXT EmptyString)] else [])
  ++ (if includes columnNames "credits"
      then (if negb (includes columnNames "credit_amount")
            then [AddColumn "credit_amount" (REAL 0)] else [])
           ++ [BackfillCreditAmount]
      else []).

(** The engine runs the statements [ss] one after the other, in the order
    of the list; each has its own outcome. *)
Fixpoint run (ss : list statement) (t : table) : table * list (result table) :=
  match ss with
  | [] => (t, [])
  | s :: ss' =>
      match exec s t with
      | Ok t' => let '(t'', rs) := run ss' t' in (t'', Ok t' :: rs)
      | Err e => let '(t'', rs) := run ss' t in (t'', Err e :: rs)
      end
  end.

(** [Promise.all]: rejects as soon as one of the promises rejects. *)
Fixpoint Promise_all {A} (rs : list (result A)) : result unit :=
  match rs with
  | [] => Ok ()
  | Ok _ :: rs' => Promise_all rs'
  | Err e :: _ => Err e
  end.

(** [checkAndMigrateSchema] when the engine executes the statements in the
    order of issue. *)
Definition checkAndMigrateSchema (t : table) : table * result unit :=
  let columnNames := table_info t in
  let '(t', outcomes) := run (migrations columnNames) t in
  (t', Promise_all outcomes).

(** [checkAndMigrateSchema] when the engine executes the statements in the
    order [executed].  The [runAsync] calls are issued one after the other
    but none is awaited before the next, so the order in which the engine
    executes them is not the code's: [executed] is a permutation of
    [migrations columnNames].  [Promise.all] rejects with the first
    rejection. *)
Definition checkAndMigrateSchema_in (executed : list statement) (t : table) :
    table * result unit :=
  let '(t', outcomes) := run executed t in
  (t', Promise_all outcomes).

(** CREATE TABLE IF NOT EXISTS daily_records (...) *)
Definition createNewTable (db : database) : database :=
  match db with
  | Some t => Some t
  | None => Some {| columns := full_schema; rows := [] |}
  end.

(** [initializeDatabase]: create or migrate; the [catch] falls back on
    [createNewTable].  The second component tells whether the [catch] ran. *)
Definition initializeDatabase (db : database) : database * bool :=
  match db with
  | None => (createNewTable db, false)
  | Some t =>
      match checkAndMigrateSchema t with
      | (t', Ok _) => (Some t', false)
      | (t', Err _) => (createNewTable (Some t'), true)
      end
  end.
End Engine.

End Schema.

(** ** The tables the application reaches

    The table starts empty ([createNewTable], or [resetDatabase]) and changes
    by the three callbacks that write. *)

Inductive action :=
  | Save (now date : string) (producedEggs breakages soldEggs : option Z)
      (pricePerEgg creditAmount : option Qc) (creditName : string)
  | AddCredit (now : string) (pressed : button) (date : string)
      (creditAmount : option Qc) (creditName : string)
  | Delete (pressed : button) (id : Z).

Definition perform (a : action) (t : table) : table :=
  match a with
  | Save now date producedEggs breakages soldEggs pricePerEgg creditAmount
      creditName =>
      (saveDailyRecord now date producedEggs breakages soldEggs pricePerEgg
         creditAmount creditName t).1
  | AddCredit now pressed date creditAmount creditName =>
      (addCreditOnly now pressed date creditAmount creditName t).1
  | Delete pressed id => (deleteRecord pressed id t).1
  end.

Inductive reachable : table → Prop :=
  | reachable_empty : reachable empty_table
  | reachable_perform a t : reachable t → reachable (perform a t).

(** ** The callbacks on a form that holds any text

    The callbacks above take a numeric field as the number read from it,
    and compute with it exactly.  A field is a text, and a JavaScript
    number is a binary64 number or NaN.  Below, a numeric field is [Blank]
    when it is empty, [NotANumber] when it is not empty and
    [parseInt]/[parseFloat] read NaN from it (a lone point, for instance),
    and [Entered x] when they read a number: for [parseInt], [x] is the
    integer the digits denote, and the number read is the binary64 number
    nearest to it; for [parseFloat], [x] is the number read.  NaN is falsy,
    every comparison with NaN is false, and NaN is bound to a statement as
    NULL.  Amounts stay exact rationals; infinities are left out. *)

Inductive entry (A : Type) :=
  | Blank
  | NotANumber
  | Entered (x : A).
Arguments Blank {A}.
Arguments NotANumber {A}.
Arguments Entered {A} x.

(** The binary64 number nearest to the integer [n], ties to the even
    significand.  The integers up to 2^53 in magnitude are binary64
    numbers; from 2^k to 2^(k+1), with k at least 53, the binary64 numbers
    are the multiples of 2^(k-52). *)
Definition binary64 (n : Z) : Z :=
  if Z.abs n <=? 2 ^ 53 then n
  else
    let ulp := 2 ^ (Z.log2 (Z.abs n) - 52) in
    let q := n / ulp in
    let r := n mod ulp in
    if 2 * r <? ulp then q * ulp
    else if ulp <? 2 * r then (q + 1) * ulp
    else if Z.even q then q * ulp
    else (q + 1) * ulp.

Module Form.

(** [!field] on the text of a field. *)
Definition blank {A} (field : entry A) : bool :=
  match field with Blank => true | _ => false end.

(** [parseInt(field)] and [parseFloat(field)], NaN being [None]. *)
Definition parseInt (field : entry Z) : option Z :=
  match field with Entered n => Some (binary64 n) | _ => None end.

Definition parseFloat (field : entry Qc) : option Qc :=
  match field with Entered q => Some q | _ => None end.

(** SET credit_amount = ?, credit_name = ?, the amount being NULL when NaN
    is bound. *)
Definition set_credit (amount : option Qc) (name : string) (r : Row.t) :
    Row.t :=
  {| Row.id := Row.id r; Row.date := Row.date r;
     Row.produced_eggs := Row.produced_eggs r;
     Row.breakages := Row.breakages r;
     Row.sold_eggs := Row.sold_eggs r;
     Row.price_per_egg := Row.price_per_egg r;
     Row.credit_amount := amount; Row.credit_name := Some name;
     Row.created_at := Row.created_at r |}.

Section Callbacks.
Context (now : string).

(** The row an INSERT of the application writes; a parameter that is NaN
    is stored as NULL. *)
Definition new_row (t : table) (date : string) (produced_eggs : option Z)
    (breakages sold_eggs : Z) (price_per_egg credit_amount : option Qc)
    (credit_name : string) : Row.t :=
  {| Row.id := next_rowid t; Row.date := date;
     Row.produced_eggs := produced_eggs;
     Row.breakages := Some breakages;
     Row.sold_eggs := Some sold_eggs;
     Row.price_per_egg := price_per_egg;
     Row.credit_amount := credit_amount;
     Row.credit_name := Some credit_name;
     Row.created_at := now |}.

(** INSERT OR REPLACE INTO daily_records (...) VALUES (?, ?, ?, ?, ?, ?, ?) *)
Definition insert_or_replace (date : string) (produced_eggs : option Z)
    (breakages sold_eggs : Z) (price_per_egg credit_amount : option Qc)
    (credit_name : string) (t : table) : result (table * run_result) :=
  let r := new_row t date produced_eggs breakages sold_eggs
             price_per_egg credit_amount credit_name in
  Ok ({| rows := filter (λ x, ¬ has Row.date date x) (rows t) ++ [r];
         sqlite_sequence := Row.id r |},
      {| changes := 1 |}).

(** INSERT INTO daily_records (...) VALUES (?, 0, 0, 0, 0, ?, ?) *)
Definition insert (date : string) (credit_amount : option Qc)
    (credit_name : string) (t : table) : result (table * run_result) :=
  if decide (Exists (has Row.date date) (rows t))
  then Err (UniqueConstraintFailed "daily_records.date")
  else
    let r := new_row t date (Some 0) 0 0 (Some 0%Qc) credit_amount
               credit_name in
    Ok ({| rows := rows t ++ [r]; sqlite_sequence := Row.id r |},
        {| changes := 1 |}).

(** UPDATE daily_records SET credit_amount = ?, credit_name = ?
    WHERE date = ? *)
Definition update_credit (credit_amount : option Qc) (credit_name : string)
    (date : string) (t : table) : result (table * run_result) :=
  Ok ({| rows := (λ r, if decide (has Row.date date r)
                       then set_credit credit_amount credit_name r
                       else r) <$> rows t;
         sqlite_sequence := sqlite_sequence t |},
      {| changes := length (filter (has Row.date date) (rows t)) |}).

(** [saveDailyRecord]: the guard tests the two texts; the defaults replace
    NaN; the check of the sold eggs is false on NaN; NaN is stored as
    NULL. *)
Definition saveDailyRecord (date : string)
    (producedEggs breakages soldEggs : entry Z)
    (pricePerEgg creditAmount : entry Qc) (creditName : string)
    (t : table) : table * option alert :=
  if blank producedEggs || blank pricePerEgg then (t, Some AlertError)
  else
    let breakagesValue := js_or (parseInt breakages) 0 in
    let soldEggsValue := js_or (parseInt soldEggs) 0 in
    let creditAmountValue := js_or (parseFloat creditAmount) 0%Qc in
    let priceValue := parseFloat pricePerEgg in
    let availableEggs :=
      match parseInt producedEggs with
      | Some produced => Some (binary64 (produced - breakagesValue))
      | None => None
      end in
    if match availableEggs with
       | Some available => soldEggsValue >? available
       | None => false
       end
    then (t, Some AlertError)
    else
      match insert_or_replace date (parseInt producedEggs) breakagesValue
              soldEggsValue priceValue (Some creditAmountValue) creditName t
      with
      | Ok (t', res) =>
          if (0 <? changes res)%nat then (t', Some AlertSuccess)
          else (t', None)
      | Err _ => (t, Some AlertError)
      end.

(** The [onPress] of the OK button of [addCreditOnly]; [amount] is
    [parseFloat(creditAmount)], and a sum with NaN is NaN. *)
Definition addCreditOnly_onPress (date : string) (amount : option Qc)
    (creditName : string) (t : table) : table * option alert :=
  let statement :=
    match select_by_date date t with
    | Some existingRecord =>
        let newCreditAmount :=
          match amount with
          | Some a => Some (js_or (Row.credit_amount existingRecord) 0 + a)%Qc
          | None => None
          end in
        let newCreditName :=
          match Row.credit_name existingRecord with
          | Some name =>
              if truthy name then name +:+ ", " +:+ creditName
              else creditName
          | None => creditName
          end in
        update_credit newCreditAmount newCreditName date t
    | None => insert date amount creditName t
    end in
  match statement with
  | Ok (t', res) =>
      if (0 <? changes res)%nat then (t', Some AlertSuccess)
      else (t', None)
  | Err _ => (t, Some AlertError)
  end.

(** [addCreditOnly]: the guard
    [!creditAmount || parseFloat(creditAmount) <= 0 || !creditName], then
    the confirmation dialog. *)
Definition addCreditOnly (pressed : button) (date : string)
    (creditAmount : entry Qc) (creditName : string)
    (t : table) : table * option alert :=
  if blank creditAmount
     || match parseFloat creditAmount with
        | Some amount => bool_decide (amount ≤ 0)%Qc
        | None => false
        end
     || negb (truthy creditName)
  then (t, Some AlertError)
  else
    match pressed with
    | Cancel => (t, None)
    | Confirm =>
        addCreditOnly_onPress date (parseFloat creditAmount) creditName t
    end.
End Callbacks.

(** What the user does to the table, with any text in the fields. *)
Inductive action :=
  | Save (now date : string) (producedEggs breakages soldEggs : entry Z)
      (pricePerEgg creditAmount : entry Qc) (creditName : string)
  | AddCredit (now : string) (pressed : button) (date : string)
      (creditAmount : entry Qc) (creditName : string)
  | Delete (pressed : button) (id : Z).

Definition perform (a : action) (t : table) : table :=
  match a with
  | Save now date producedEggs breakages soldEggs pricePerEgg creditAmount
      creditName =>
      (saveDailyRecord now date producedEggs breakages soldEggs pricePerEgg
         creditAmount creditName t).1
  | AddCredit now pressed date creditAmount creditName =>
      (addCreditOnly now pressed date creditAmount creditName t).1
  | Delete pressed id => (deleteRecord pressed id t).1
  end.

(** The tables reached from the empty table by actions that are all
    [allowed]. *)
Inductive reachable (allowed : action → Prop) : table → Prop :=
  | reachable_empty : reachable allowed empty_table
  | reachable_perform a t :
      allowed a → reachable allowed t → reachable allowed (perform a t).

End Form.

(** ** The component

    The state of [App]: the table behind [db], the seven form fields, and
    what the screen shows, [dailyRecords] and [summary].  The callbacks
    below are the callbacks on numbers together with what they do to the
    form and to the screen: a numeric field is blank or holds a number. *)

Module Component.

Record state := State {
  db : table;
  date : string;
  producedEggs : option Z;
  breakages : option Z;
  soldEggs : option Z;
  pricePerEgg : option Qc;
  creditAmount : option Qc;
  creditName : string;
  dailyRecords : list Row.t;
  summary : summary
}.

(** The state at mount: today's date, blank fields, nothing shown yet. *)
Definition initial (today : string) (t : table) : state :=
  {| db := t; date := today;
     producedEggs := None; breakages := None; soldEggs := None;
     pricePerEgg := None; creditAmount := None; creditName := EmptyString;
     dailyRecords := [];
     summary := {| totalProduced := 0; totalBreakages := 0; totalSold := 0;
                   totalCashSales := 0%Qc; totalCredits := 0%Qc |} |}.

(** [loadDailyRecords]: [setDailyRecords(records)], then [calculateSummary]:
    [setSummary(result)] when its SELECT resolves; when it rejects, the
    [catch] logs the error and the summary stays. *)
Definition loadDailyRecords (s : state) : state :=
  {| db := db s; date := date s;
     producedEggs := producedEggs s; breakages := breakages s;
     soldEggs := soldEggs s; pricePerEgg := pricePerEgg s;
     creditAmount := creditAmount s; creditName := creditName s;
     dailyRecords := loadDailyRecords (db s);
     summary :=
       match Int64.calculateSummary (db s) with
       | Ok result => result
       | Err _ => summary s
       end |}.

(** The effect of [initializeDatabase] once the table is there. *)
Definition mount (today : string) (t : table) : state :=
  loadDailyRecords (initial today t).

Definition with_db (t : table) (s : state) : state :=
  {| db := t; date := date s;
     producedEggs := producedEggs s; breakages := breakages s;
     soldEggs := soldEggs s; pricePerEgg := pricePerEgg s;
     creditAmount := creditAmount s; creditName := creditName s;
     dailyRecords := dailyRecords s; summary := summary s |}.

(** [saveDailyRecord]: on success the six fields other than the date are
    emptied and the screen is reloaded. *)
Definition saveDailyRecord (now : string) (s : state) : state * option alert :=
  let '(t, shown) :=
    saveDailyRecord now (date s) (producedEggs s) (breakages s) (soldEggs s)
      (pricePerEgg s) (creditAmount s) (creditName s) (db s) in
  match shown with
  | Some AlertSuccess =>
      (loadDailyRecords
         {| db := t; date := date s;
            producedEggs := None; breakages := None; soldEggs := None;
            pricePerEgg := None; creditAmount := None;
            creditName := EmptyString;
            dailyRecords := dailyRecords s; summary := summary s |}, shown)
  | _ => (with_db t s, shown)
  end.

(** [addCreditOnly]: on success the screen is reloaded and the two credit
    fields are emptied. *)
Definition addCreditOnly (now : string) (pressed : button) (s : state) :
    state * option alert :=
  let '(t, shown) :=
    addCreditOnly now pressed (date s) (creditAmount s) (creditName s) (db s) in
  match shown with
  | Some AlertSuccess =>
      (loadDailyRecords
         {| db := t; date := date s;
            producedEggs := producedEggs s; breakages := breakages s;
            soldEggs := soldEggs s; pricePerEgg := pricePerEgg s;
            creditAmount := None; creditName := EmptyString;
            dailyRecords := dailyRecords s; summary := summary s |}, shown)
  | _ => (with_db t s, shown)
  end.

(** [deleteRecord]: after the DELETE the screen is reloaded. *)
Definition deleteRecord (pressed : button) (id : Z) (s : state) :
    state * option alert :=
  let '(t, shown) := deleteRecord pressed id (db s) in
  match shown with
  | Some AlertSuccess => (loadDailyRecords (with_db t s), shown)
  | _ => (with_db t s, shown)
  end.

(** [resetDatabase]: the table is dropped and created again, then the
    screen is reloaded. *)
Definition resetDatabase (pressed : button) (s : state) : state * option alert :=
  match pressed with
  | Cancel => (s, None)
  | Confirm => (loadDailyRecords (with_db empty_table s), Some AlertSuccess)
  end.

(** What the user does. *)
Inductive event :=
  | SetDate (text : string)
  | SetProducedEggs (field : option Z)
  | SetBreakages (field : option Z)
  | SetSoldEggs (field : option Z)
  | SetPricePerEgg (field : option Qc)
  | SetCreditAmount (field : option Qc)
  | SetCreditName (text : string)
  | PressSave (now : string)
  | PressAddCredit (now : string) (pressed : button)
  | PressDelete (pressed : button) (id : Z)
  | PressExport
  | PressReset (pressed : button).

Definition handle (e : event) (s : state) : state :=
  match e with
  | SetDate text =>
      {| db := db s; date := text;
         producedEggs := producedEggs s; breakages := breakages s;
         soldEggs := soldEggs s; pricePerEgg := pricePerEgg s;
         creditAmount := creditAmount s; creditName := creditName s;
         dailyRecords := dailyRecords s; summary := summary s |}
  | SetProducedEggs field =>
      {| db := db s; date := date s;
         producedEggs := field; breakages := breakages s;
         soldEggs := soldEggs s; pricePerEgg := pricePerEgg s;
         creditAmount := creditAmount s; creditName := creditName s;
         dailyRecords := dailyRecords s; summary := summary s |}
  | SetBreakages field =>
      {| db := db s; date := date s;
         producedEggs := producedEggs s; breakages := field;
         soldEggs := soldEggs s; pricePerEgg := pricePerEgg s;
         creditAmount := creditAmount s; creditName := creditName s;
         dailyRecords := dailyRecords s; summary := summary s |}
  | SetSoldEggs field =>
      {| db := db s; date := date s;
         producedEggs := producedEggs s; breakages := breakages s;
         soldEggs := field; pricePerEgg := pricePerEgg s;
         creditAmount := creditAmount s; creditName := creditName s;
         dailyRecords := dailyRecords s; summary := summary s |}
  | SetPricePerEgg field =>
      {| db := db s; date := date s;
         producedEggs := producedEggs s; breakages := breakages s;
         soldEggs := soldEggs s; pricePerEgg := field;
         creditAmount := creditAmount s; creditName := creditName s;
         dailyRecords := dailyRecords s; summary := summary s |}
  | SetCreditAmount field =>
      {| db := db s; date := date s;
         producedEggs := producedEggs s; breakages := breakages s;
         soldEggs := soldEggs s; pricePerEgg := pricePerEgg s;
         creditAmount := field; creditName := creditName s;
         dailyRecords := dailyRecords s; summary := summary s |}
  | SetCreditName text =>
      {| db := db s; date := date s;
         producedEggs := producedEggs s; breakages := breakages s;
         soldEggs := soldEggs s; pricePerEgg := pricePerEgg s;
         creditAmount := creditAmount s; creditName := text;
         dailyRecords := dailyRecords s; summary := summary s |}
  | PressSave now => (saveDailyRecord now s).1
  | PressAddCredit now pressed => (addCreditOnly now pressed s).1
  | PressDelete pressed id => (deleteRecord pressed id s).1
  | PressExport => s
  | PressReset pressed => (resetDatabase pressed s).1
  end.

(** The states of a session: the component mounts on a table the
    application has reached, then the user acts. *)
Inductive running : state → Prop :=
  | running_mount today t : reachable t → running (mount today t)
  | running_handle e s : running s → running (handle e s).

End Component.

(** * Notions used to state the properties *)

(** The sum of a column over the rows, NULL counting for nothing. *)
Definition sum_over {A} (zero : A) (add : A → A → A) (f : Row.t → A)
    (l : list Row.t) : A :=
  foldr (λ r acc, add (f r) acc) zero l.



(** ** Well-formed CSV records (RFC 4180)

    A record is fields separated by commas and ended by a line break; a
    field is either free of double quotes, commas and line breaks, or
    enclosed in double quotes, where it may hold commas, line breaks and
    doubled double quotes.  The recogniser reads a line character by
    character. *)











(** What a row adds to the cash sales. *)
Definition cash_of (r : Row.t) : Qc :=
  (Number_of_Z (default 0%Z (Row.sold_eggs r))
   * default 0 (Row.price_per_egg r))%Qc.

(** The summary [s] with the counts and amounts of the row [r] added. *)
Definition summary_with (s : summary) (r : Row.t) : summary :=
  {| totalProduced := totalProduced s + default 0 (Row.produced_eggs r);
     totalBreakages := totalBreakages s + default 0 (Row.breakages r);
     totalSold := totalSold s + default 0 (Row.sold_eggs r);
     totalCashSales := (totalCashSales s + cash_of r)%Qc;
     totalCredits :=
       (totalCredits s + default 0 (Row.credit_amount r))%Qc |}.

(** ** The migration as a function of the columns found

    [migrated] adds, among sold_eggs, credit_amount and credit_name, the
    columns the table lacks, then backfills when the table has the old
    column credits. *)

Definition add_if_missing (columnNames : list string) (name : string)
    (default : Schema.value) (t : Schema.table) : Schema.table :=
  if Schema.includes columnNames name then t
  else {| Schema.columns := Schema.columns t ++ [name];
          Schema.rows := (λ r, <[name := default]> r) <$> Schema.rows t |}.

Definition migrated (numeric_literal : string → option Qc)
    (t : Schema.table) : Schema.table :=
  let columnNames := Schema.columns t in
  let t3 :=
    add_if_missing columnNames "credit_name" (Schema.TEXT EmptyString)
      (add_if_missing columnNames "credit_amount" (Schema.REAL 0)
         (add_if_missing columnNames "sold_eggs" (Schema.INTEGER 0) t)) in
  if Schema.includes columnNames "credits"
  then {| Schema.columns := Schema.columns t3;
          Schema.rows :=
            Schema.backfill_row numeric_literal <$> Schema.rows t3 |}
  else t3.

(** [resetDatabase]: the confirmation dialog, then DROP TABLE IF EXISTS
    daily_records and [createNewTable]. *)
Definition resetDatabase (pressed : button) (db : Schema.database) :
    Schema.database :=
  match pressed with
  | Cancel => db
  | Confirm => Schema.createNewTable None
  end.

(** ** Column names

    The engine compares column names without regard to the case of the
    ASCII letters, [includes] compares them as they are.  The two agree on
    a table none of whose columns is a name of the migration in another
    case. *)

Definition lower_char (c : Ascii.ascii) : Ascii.ascii :=
  let n := Ascii.nat_of_ascii c in
  if (65 <=? n)%nat && (n <=? 90)%nat then Ascii.ascii_of_nat (n + 32) else c.

Fixpoint lower (s : string) : string :=
  match s with
  | EmptyString => EmptyString
  | String c s' => String (lower_char c) (lower s')
  end.

(** The columns [checkAndMigrateSchema] looks for. *)
Definition migration_columns : list string :=
  ["sold_eggs"; "credit_amount"; "credit_name"; "credits"].

Definition no_case_variant (columnNames : list string) : Prop :=
  Forall (λ c, Forall (λ name, lower c = name → c = name) migration_columns)
    columnNames.

#[global] Instance no_case_variant_dec (columnNames : list string) :
  Decision (no_case_variant columnNames).
Proof. unfold no_case_variant. apply _. Defined.

(** The column a statement adds. *)
Definition statement_column (s : Schema.statement) : option string :=
  match s with
  | Schema.AddColumn name _ => Some name
  | Schema.BackfillCreditAmount => None
  end.

(** ** Sums within the integers of the engine *)

(** What [sum()] holds after each value of the column, from [acc]. *)
Fixpoint running_sums (acc : Z) (values : list Z) : list Z :=
  match values with
  | [] => []
  | v :: values' => (acc + v) :: running_sums (acc + v) values'
  end.

(** No running sum of the column leaves the 64-bit range. *)
Definition sums_fit (column : list (option Z)) : Prop :=
  Forall Int64.range (running_sums 0 (omap (λ v, v) column)).

#[global] Instance sums_fit_dec (column : list (option Z)) :
  Decision (sums_fit column).
Proof. unfold sums_fit. apply _. Defined.

Definition summary_fits (t : table) : Prop :=
  sums_fit (Row.produced_eggs <$> rows t)
  ∧ sums_fit (Row.breakages <$> rows t)
  ∧ sums_fit (Row.sold_eggs <$> rows t).

#[global] Instance summary_fits_dec (t : table) : Decision (summary_fits t).
Proof. unfold summary_fits. apply _. Defined.

(** Every count of the table is a 64-bit integer, as an INTEGER the engine
    stores is. *)
Definition counts_int64 (t : table) : Prop :=
  Forall (λ r, Forall Int64.range
                 (omap (λ v, v) [Row.produced_eggs r; Row.breakages r;
                                 Row.sold_eggs r]))
    (rows t).

#[global] Instance counts_int64_dec (t : table) : Decision (counts_int64 t).
Proof. unfold counts_int64. apply _. Defined.

(** ** What a field holds *)

(** The number a field holds, if it holds one; and that number, or [d]
    when the field is blank or not a number. *)
Definition entered {A} (field : entry A) : option A :=
  match field with Entered x => Some x | _ => None end.

Definition entered_or {A} (d : A) (field : entry A) : A :=
  match field with Entered x => x | _ => d end.

(** The field of the callbacks on numbers: blank, or holding a number. *)
Definition field_of {A} (x : option A) : entry A :=
  match x with Some a => Entered a | None => Blank end.

(** ** Counts that binary64 holds exactly *)

(** A count of magnitude 2^52 at most: such counts are binary64 numbers,
    and so is the difference of two of them. *)
Definition exact_count (field : entry Z) : Prop :=
  ∀ n, field = Entered n → Z.abs n ≤ 2 ^ 52.

(** A save whose three counts are exact; the other actions hold no
    count. *)
Definition exact_action (a : Form.action) : Prop :=
  match a with
  | Form.Save _ _ producedEggs breakages soldEggs _ _ _ =>
      exact_count producedEggs ∧ exact_count breakages
      ∧ exact_count soldEggs
  | _ => True
  end.

(** ** Rows as the callbacks write them *)

(** Every count and amount of the row is present, and the sold eggs are
    within the produced eggs less the breakages. *)
Definition filled (r : Row.t) : Prop :=
  ∃ produced broken sold price credit name,
    Row.produced_eggs r = Some produced ∧ Row.breakages r = Some broken
    ∧ Row.sold_eggs r = Some sold ∧ Row.price_per_egg r = Some price
    ∧ Row.credit_amount r = Some credit ∧ Row.credit_name r = Some name
    ∧ sold ≤ produced - broken.

(** The columns no write leaves NULL: the breakages, the sold eggs and the
    credit name. *)
Definition has_counts (r : Row.t) : Prop :=
  ∃ broken sold name,
    Row.breakages r = Some broken ∧ Row.sold_eggs r = Some sold
    ∧ Row.credit_name r = Some name.

(** The sold eggs are within the produced eggs less the breakages, when the
    produced eggs are not NULL. *)
Definition in_stock (r : Row.t) : Prop :=
  ∀ produced broken sold,
    Row.produced_eggs r = Some produced → Row.breakages r = Some broken →
    Row.sold_eggs r = Some sold → sold ≤ produced - broken.

(** A row that comes from a row of [l]: that row, or that row with its
    credit rewritten. *)
Definition comes_from (l : list Row.t) (r' : Row.t) : Prop :=
  ∃ r, r ∈ l ∧ (r' = r ∨ ∃ ca cn, r' = Form.set_credit ca cn r).

(** A row that continues [r]: the same row, or [r] with its credit
    rewritten. *)
Definition continues (r r' : Row.t) : Prop :=
  r' = r ∨ ∃ ca cn, r' = Row.set_credit ca cn r.

(** ** Sample data *)

(** A number printer for the examples: an integer is printed in decimal
    digits, as a template literal prints it.  Other numbers are printed as
    a fraction; no example prints one. *)
Definition decimal_Z (n : Z) : string := NilZero.string_of_int (Z.to_int n).

Definition decimal (q : Qc) : string :=
  match Qden q with
  | 1%positive => decimal_Z (Qnum q)
  | d => decimal_Z (Qnum q) +:+ "/" +:+ decimal_Z (Z.pos d)
  end.

(** A record of 1 March with a credit for [name]. *)
Definition credit_record (name : string) : Row.t :=
  {| Row.id := 1; Row.date := "2024-03-01";
     Row.produced_eggs := Some 10; Row.breakages := Some 1;
     Row.sold_eggs := Some 5; Row.price_per_egg := Some (Q2Qc 2);
     Row.credit_amount := Some (Q2Qc 3);
     Row.credit_name := Some name;
     Row.created_at := "2024-03-01 18:00:00" |}.

(** A table left by an old version of the application: no sold_eggs, no
    credit_amount, no credit_name, and the old column credits. *)
Definition legacy_table : Schema.table :=
  {| Schema.columns :=
       ["id"; "date"; "produced_eggs"; "breakages"; "price_per_egg";
        "credits"; "created_at"];
     Schema.rows :=
       [ list_to_map
           [("id", Schema.INTEGER 1); ("date", Schema.TEXT "2024-03-01");
            ("produced_eggs", Schema.INTEGER 10);
            ("breakages", Schema.INTEGER 1);
            ("price_per_egg", Schema.REAL (Q2Qc 2));
            ("credits", Schema.REAL (Q2Qc 3));
            ("created_at", Schema.TEXT "2024-03-01 18:00:00")] ] |}.

(** A table of the version before the credit name and the sold eggs. *)
Definition older_table : Schema.table :=
  {| Schema.columns :=
       ["id"; "date"; "produced_eggs"; "breakages"; "price_per_egg";
        "created_at"];
     Schema.rows :=
       [ list_to_map
           [("id", Schema.INTEGER 1); ("date", Schema.TEXT "2024-03-01");
            ("produced_eggs", Schema.INTEGER 10);
            ("breakages", Schema.INTEGER 1);
            ("price_per_egg", Schema.REAL (Q2Qc 2));
            ("created_at", Schema.TEXT "2024-03-01 18:00:00")] ] |}.

(** The statements the migration issues on [legacy_table], in an order in
    which the engine may execute them: the UPDATE first. *)
Definition update_first : list Schema.statement :=
  [ Schema.BackfillCreditAmount;
    Schema.AddColumn "sold_eggs" (Schema.INTEGER 0);
    Schema.AddColumn "credit_amount" (Schema.REAL 0);
    Schema.AddColumn "credit_name" (Schema.TEXT EmptyString);
    Schema.AddColumn "credit_amount" (Schema.REAL 0) ].

(** No example holds a text in a numeric column. *)
Definition no_numeric_text : string → option Qc := λ _, None.

(** Three days entered out of date order, with whole prices. *)
Definition three_days : table :=
  {| rows :=
       [ {| Row.id := 1; Row.date := "2024-03-02";
            Row.produced_eggs := Some 20; Row.breakages := Some 0;
            Row.sold_eggs := Some 10; Row.price_per_egg := Some (Q2Qc 3);
            Row.credit_amount := Some 0%Qc;
            Row.credit_name := Some EmptyString;
            Row.created_at := "2024-03-02 18:00:00" |};
         credit_record "Ann" ;
         {| Row.id := 3; Row.date := "2024-03-03";
            Row.produced_eggs := Some 15; Row.breakages := None;
            Row.sold_eggs := Some 15; Row.price_per_egg := Some (Q2Qc 2);
            Row.credit_amount := None;
            Row.credit_name := None;
            Row.created_at := "2024-03-03 18:00:00" |} ];
     sqlite_sequence := 3 |}.

(** The two records of the example: (10, 1, 5, 2.0, 3.0), (20, 0, 10, 1.5, 0). *)
Definition two_days : table :=
  {| rows :=
       [ {| Row.id := 1; Row.date := "2024-03-01";
            Row.produced_eggs := Some 10; Row.breakages := Some 1;
            Row.sold_eggs := Some 5; Row.price_per_egg := Some (Q2Qc 2);
            Row.credit_amount := Some (Q2Qc 3);
            Row.credit_name := Some "Ann";
            Row.created_at := "2024-03-01 18:00:00" |};
         {| Row.id := 2; Row.date := "2024-03-02";
            Row.produced_eggs := Some 20; Row.breakages := Some 0;
            Row.sold_eggs := Some 10;
            Row.price_per_egg := Some (Q2Qc (3 # 2));
            Row.credit_amount := Some 0%Qc;
            Row.credit_name := Some EmptyString;
            Row.created_at := "2024-03-02 18:00:00" |} ];
     sqlite_sequence := 2 |}.

(** The two saves that leave [two_days] on a new table. *)
Definition first_save : action :=
  Save "2024-03-01 18:00:00" "2024-03-01" (Some 10) (Some 1) (Some 5)
    (Some (Q2Qc 2)) (Some (Q2Qc 3)) "Ann".

Definition second_save : action :=
  Save "2024-03-02 18:00:00" "2024-03-02" (Some 20) (Some 0) (Some 10)
    (Some (Q2Qc (3 # 2))) (Some 0%Qc) EmptyString.

(** Two days of nine quintillion eggs each: either count is a 64-bit
    integer, their sum is not. *)
Definition heavy_day (date : string) : action :=
  Save (date +:+ " 18:00:00") date (Some 9000000000000000000) None None
    (Some (Q2Qc 1)) None EmptyString.

Definition heavy_days : table :=
  perform (heavy_day "2024-03-02") (perform (heavy_day "2024-03-01") empty_table).

(** Two days entered with a text that is not a number: a lone point as
    the price of the first, then as the amount of a credit for the
    second. *)
Definition any_text_days : table :=
  Form.perform
    (Form.AddCredit "2024-03-02 19:00:00" Confirm "2024-03-02" NotANumber
       "Ben")
    (Form.perform
       (Form.Save "2024-03-01 18:00:00" "2024-03-01" (Entered 10) Blank
          (Entered 5) NotANumber Blank EmptyString)
       empty_table).

(** The screen on 3 March, mounted on [two_days]. *)
Definition third_day : Component.state := Component.mount "2024-03-03" two_days.

(** An evening at the screen: the day is entered and saved, then a credit
    is added to it. *)
Definition evening : list Component.event :=
  [ Component.SetProducedEggs (Some 15); Component.SetSoldEggs (Some 15);
    Component.SetPricePerEgg (Some (Q2Qc 2));
    Component.PressSave "2024-03-03 18:00:00";
    Component.SetCreditAmount (Some (Q2Qc 4)); Component.SetCreditName "Ben";
    Component.PressAddCredit "2024-03-03 19:00:00" Confirm ].



(** * Properties of the record store *)

(** ** [x || 0] on a number, [x || ''] on a text *)

Lemma js_or_Z (n : Z) : js_or (Some n) 0 = n.
Proof.
  unfold js_or, truthy, Z_truthy. by destruct (Z.eqb_spec n 0) as [->|].
Qed.

Lemma js_or_Qc (q : Qc) : js_or (Some q) 0%Qc = q.
Proof.
  unfold js_or, truthy, Qc_truthy.
  destruct (Qc_eq_bool q 0) eqn:E; simpl; [|done].
  symmetry. by apply Qc_eq_bool_correct.
Qed.


Lemma truthy_string (s : string) : truthy s = true ↔ s ≠ EmptyString.
Proof. destruct s; unfold truthy, string_truthy; split; intros; congruence. Qed.

(** ** Rows selected by a key column *)

Section Keyed.
Context {K : Type} `{EqDecision K} (column : Row.t → K).

Lemma filter_has_absent (k : K) (l : list Row.t) :
  k ∉ column <$> l → filter (has column k) l = [].
Proof.
  induction l as [|r l IH]; [done|].
  rewrite fmap_cons, not_elem_of_cons. intros [Hne Hl].
  rewrite filter_cons_False; [by apply IH|].
  unfold has. congruence.
Qed.

Lemma filter_not_has_absent (k : K) (l : list Row.t) :
  k ∉ column <$> l → filter (λ r, ¬ has column k r) l = l.
Proof.
  induction l as [|r l IH]; [done|].
  rewrite fmap_cons, not_elem_of_cons. intros [Hne Hl].
  rewrite filter_cons_True; [by rewrite IH|].
  unfold has. congruence.
Qed.

(** Under a uniqueness constraint a key selects one row, at one place. *)
Lemma unique_key_split (r : Row.t) (l : list Row.t) :
  NoDup (column <$> l) → r ∈ l →
  ∃ l1 l2, l = l1 ++ r :: l2
    ∧ (column r ∉ column <$> l1) ∧ (column r ∉ column <$> l2).
Proof.
  intros Hnd (l1 & l2 & ->)%list_elem_of_split. exists l1, l2.
  rewrite fmap_app, fmap_cons in Hnd.
  apply NoDup_app in Hnd as (_ & Hl1 & [Hl2 _]%NoDup_cons).
  split_and!; [done| |done].
  intros Hin. apply (Hl1 _ Hin), list_elem_of_here.
Qed.

Lemma filter_has_unique (r : Row.t) (l : list Row.t) :
  NoDup (column <$> l) → r ∈ l → filter (has column (column r)) l = [r].
Proof.
  intros Hnd Hr.
  destruct (unique_key_split r l Hnd Hr) as (l1 & l2 & -> & H1 & H2).
  rewrite filter_app, filter_cons_True by done.
  by rewrite !filter_has_absent.
Qed.

Lemma filter_not_has_unique (r : Row.t) (l1 l2 : list Row.t) :
  column r ∉ column <$> l1 → column r ∉ column <$> l2 →
  filter (λ x, ¬ has column (column r) x) (l1 ++ r :: l2) = l1 ++ l2.
Proof.
  intros H1 H2. rewrite filter_app, filter_cons_False.
  - by rewrite !filter_not_has_absent.
  - intros Hn. by apply Hn.
Qed.

Lemma NoDup_column_filter (P : Row.t → Prop) `{∀ r, Decision (P r)}
    (l : list Row.t) :
  NoDup (column <$> l) → NoDup (column <$> filter P l).
Proof.
  intros Hnd. eapply sublist_NoDup; [exact Hnd|].
  by apply fmap_sublist, sublist_filter.
Qed.

Lemma not_has_filtered (k : K) (l : list Row.t) :
  k ∉ column <$> filter (λ r, ¬ has column k r) l.
Proof.
  intros (r & Hd & [Hr _]%list_elem_of_filter)%list_elem_of_fmap.
  by apply Hr.
Qed.
End Keyed.

Lemma select_by_date_Some (d : string) (t : table) (r : Row.t) :
  select_by_date d t = Some r → r ∈ rows t ∧ Row.date r = d.
Proof.
  unfold select_by_date. intros H.
  assert (r ∈ filter (has Row.date d) (rows t))
    as [? ?]%list_elem_of_filter; [|done].
  destruct (filter _ _); simplify_eq/=. apply list_elem_of_here.
Qed.

Lemma select_by_date_None (d : string) (t : table) :
  select_by_date d t = None ↔ d ∉ Row.date <$> rows t.
Proof.
  unfold select_by_date. split.
  - intros H (r & Hd & Hr)%list_elem_of_fmap.
    assert (r ∈ filter (has Row.date d) (rows t)) as Hin.
    { apply list_elem_of_filter. by split. }
    destruct (filter _ _); [by apply elem_of_nil in Hin|done].
  - intros H. by rewrite filter_has_absent.
Qed.

Lemma select_by_date_unique (t : table) (r : Row.t) :
  unique_dates t → r ∈ rows t → select_by_date (Row.date r) t = Some r.
Proof.
  intros Hu Hr. unfold select_by_date. by rewrite filter_has_unique.
Qed.

(** ** Row identifiers *)

Lemma max_rowid_ge (l : list Row.t) (r : Row.t) :
  r ∈ l → Row.id r ≤ max_rowid l.
Proof.
  induction l as [|x l IH]; [by intros ?%elem_of_nil|].
  intros [->|Hr]%elem_of_cons; simpl; [lia|].
  specialize (IH Hr). lia.
Qed.

Lemma next_rowid_fresh (t : table) (r : Row.t) :
  r ∈ rows t → Row.id r < next_rowid t.
Proof. intros H%max_rowid_ge. unfold next_rowid. lia. Qed.

(** ** The constraints are kept by every statement *)

Lemma insert_or_replace_unique now date p b s price ca cn t t' res :
  unique_dates t → unique_ids t →
  insert_or_replace now date p b s price ca cn t = Ok (t', res) →
  unique_dates t' ∧ unique_ids t'.
Proof.
  unfold unique_dates, unique_ids, insert_or_replace. intros Hd Hi [= <- _].
  simpl. rewrite !fmap_app. split.
  - apply NoDup_app. split_and!.
    + by apply NoDup_column_filter.
    + intros d Hin [->|[]%elem_of_nil]%elem_of_cons.
      by apply not_has_filtered in Hin.
    + apply NoDup_singleton.
  - apply NoDup_app. split_and!.
    + by apply NoDup_column_filter.
    + intros i (r & -> & [_ Hr]%list_elem_of_filter)%list_elem_of_fmap
        [Heq|[]%elem_of_nil]%elem_of_cons.
      apply next_rowid_fresh in Hr. simpl in Heq. lia.
    + apply NoDup_singleton.
Qed.

Lemma insert_unique now date p b s price ca cn t t' res :
  unique_dates t → unique_ids t →
  insert now date p b s price ca cn t = Ok (t', res) →
  unique_dates t' ∧ unique_ids t'.
Proof.
  unfold unique_dates, unique_ids, insert. intros Hd Hi.
  case_decide as Hex; [done|]. intros [= <- _].
  simpl. rewrite !fmap_app. split.
  - apply NoDup_app. split_and!; [done| |apply NoDup_singleton].
    intros d (r & -> & Hr)%list_elem_of_fmap [Heq|[]%elem_of_nil]%elem_of_cons.
    apply Hex, Exists_exists. by exists r.
  - apply NoDup_app. split_and!; [done| |apply NoDup_singleton].
    intros i (r & -> & Hr)%list_elem_of_fmap [Heq|[]%elem_of_nil]%elem_of_cons.
    apply next_rowid_fresh in Hr. simpl in Heq. lia.
Qed.

Lemma update_credit_unique ca cn date t t' res :
  unique_dates t → unique_ids t →
  update_credit ca cn date t = Ok (t', res) →
  unique_dates t' ∧ unique_ids t'.
Proof.
  unfold unique_dates, unique_ids, update_credit. intros Hd Hi [= <- _].
  simpl. induction (rows t) as [|r l IH]; [done|].
  rewrite !fmap_cons in *.
  apply NoDup_cons in Hd as [Hd1 Hd2]. apply NoDup_cons in Hi as [Hi1 Hi2].
  destruct (IH Hd2 Hi2) as [IHd IHi]. clear IH.
  assert (Row.date <$> ((λ r, if decide (has Row.date date r)
            then Row.set_credit ca cn r else r) <$> l) = Row.date <$> l) as Ed.
  { clear. induction l; simpl; [done|]. f_equal; [by case_decide|done]. }
  assert (Row.id <$> ((λ r, if decide (has Row.date date r)
            then Row.set_credit ca cn r else r) <$> l) = Row.id <$> l) as Ei.
  { clear. induction l; simpl; [done|]. f_equal; [by case_decide|done]. }
  split; apply NoDup_cons; (split; [|done]).
  - rewrite Ed. by case_decide.
  - rewrite Ei. by case_decide.
Qed.

Lemma delete_by_id_unique id t t' res :
  unique_dates t → unique_ids t →
  delete_by_id id t = Ok (t', res) →
  unique_dates t' ∧ unique_ids t'.
Proof.
  unfold unique_dates, unique_ids, delete_by_id. intros Hd Hi [= <- _].
  simpl. split; by apply NoDup_column_filter.
Qed.

Lemma saveDailyRecord_unique now date producedEggs breakages soldEggs
    pricePerEgg creditAmount creditName t :
  unique_dates t → unique_ids t →
  let t' := (saveDailyRecord now date producedEggs breakages soldEggs
               pricePerEgg creditAmount creditName t).1 in
  unique_dates t' ∧ unique_ids t'.
Proof.
  intros Hd Hi. unfold saveDailyRecord.
  destruct producedEggs as [produced|], pricePerEgg as [priceValue|]; try done.
  destruct (_ >? _); [done|].
  destruct (insert_or_replace _ _ _ _ _ _ _ _ _) as [[t' res]|e] eqn:E; [|done].
  apply insert_or_replace_unique in E; [|done..].
  by destruct (0 <? changes res)%nat.
Qed.

Lemma addCreditOnly_unique now pressed date creditAmount creditName t :
  unique_dates t → unique_ids t →
  let t' := (addCreditOnly now pressed date creditAmount creditName t).1 in
  unique_dates t' ∧ unique_ids t'.
Proof.
  intros Hd Hi. unfold addCreditOnly.
  destruct creditAmount as [amount|]; [|done].
  case_decide; [done|]. destruct (truthy creditName); [|done].
  destruct pressed; [done|]. unfold addCreditOnly_onPress.
  destruct (select_by_date date t) as [existingRecord|].
  - destruct (update_credit _ _ _ _) as [[t' res]|e] eqn:E; [|done].
    apply update_credit_unique in E; [|done..].
    by destruct (0 <? changes res)%nat.
  - destruct (insert _ _ _ _ _ _ _ _ _) as [[t' res]|e] eqn:E; [|done].
    apply insert_unique in E; [|done..].
    by destruct (0 <? changes res)%nat.
Qed.

Lemma deleteRecord_unique pressed id t :
  unique_dates t → unique_ids t →
  let t' := (deleteRecord pressed id t).1 in
  unique_dates t' ∧ unique_ids t'.
Proof.
  intros Hd Hi. unfold deleteRecord. destruct pressed; [done|].
  destruct (delete_by_id id t) as [[t' res]|e] eqn:E; [|done].
  by apply delete_by_id_unique in E.
Qed.

(** Every table the application reaches satisfies UNIQUE(date) and the
    primary key. *)
Lemma reachable_unique (t : table) :
  reachable t → unique_dates t ∧ unique_ids t.
Proof.
  induction 1 as [|a t _ [Hd Hi]].
  - split; apply NoDup_nil_2.
  - destruct a; cbn [perform].
    + by apply saveDailyRecord_unique.
    + by apply addCreditOnly_unique.
    + by apply deleteRecord_unique.
Qed.

(** ** Deleting a record *)

(** C9. Deleting an id that no record has succeeds, reports zero rows and
    leaves the table as it is (the callback still shows its success alert);
    deleting the id of a record removes that record and nothing else: the
    records before it and after it stay, in their order. *)
Theorem deleteRecord_by_id (t : table) (id : Z) :
  (id ∉ Row.id <$> rows t →
     delete_by_id id t = Ok (t, {| changes := 0 |})
     ∧ deleteRecord Confirm id t = (t, Some AlertSuccess))
  ∧ (unique_ids t → id ∈ Row.id <$> rows t →
     ∃ r before after,
       rows t = before ++ r :: after ∧ Row.id r = id
       ∧ delete_by_id id t =
           Ok ({| rows := before ++ after;
                  sqlite_sequence := sqlite_sequence t |},
               {| changes := 1 |})
       ∧ deleteRecord Confirm id t =
           ({| rows := before ++ after;
               sqlite_sequence := sqlite_sequence t |}, Some AlertSuccess)).
Proof.
  split.
  - intros Hid. unfold deleteRecord, delete_by_id.
    rewrite filter_not_has_absent, filter_has_absent by done.
    by destruct t.
  - intros Hu (r & -> & Hr)%list_elem_of_fmap.
    destruct (unique_key_split Row.id r (rows t) Hu Hr)
      as (before & after & Hrows & Hb & Ha).
    exists r, before, after. unfold deleteRecord, delete_by_id.
    rewrite Hrows, filter_not_has_unique by done.
    rewrite filter_app, filter_cons_True by done.
    rewrite !filter_has_absent by done. done.
Qed.

(** ** Adding a credit *)

Lemma update_absent (g : Row.t → Row.t) (d : string) (l : list Row.t) :
  d ∉ Row.date <$> l →
  (λ r, if decide (has Row.date d r) then g r else r) <$> l = l.
Proof.
  induction l as [|x l IH]; [done|].
  rewrite !fmap_cons, not_elem_of_cons. intros [Hne Hl].
  rewrite IH by done. by rewrite decide_False by (unfold has; congruence).
Qed.

Lemma addCreditOnly_guard now date amount creditName t :
  (0 < amount)%Qc → creditName ≠ EmptyString →
  addCreditOnly now Confirm date (Some amount) creditName t
  = addCreditOnly_onPress now date amount creditName t.
Proof.
  intros Hpos Hname. unfold addCreditOnly.
  rewrite decide_False by (by apply Qclt_not_le).
  by apply truthy_string in Hname as ->.
Qed.

(** The UPDATE branch: the row of the date is rewritten in place. *)
Lemma addCreditOnly_existing now t r before after b Y :
  rows t = before ++ r :: after →
  Row.date r ∉ Row.date <$> before → Row.date r ∉ Row.date <$> after →
  (0 < b)%Qc → Y ≠ EmptyString →
  addCreditOnly now Confirm (Row.date r) (Some b) Y t =
    ({| rows := before
          ++ Row.set_credit (js_or (Row.credit_amount r) 0 + b)%Qc
               (match Row.credit_name r with
                | Some X => if truthy X then X +:+ ", " +:+ Y else Y
                | None => Y
                end) r
          :: after;
        sqlite_sequence := sqlite_sequence t |}, Some AlertSuccess).
Proof.
  intros Hrows Hb Ha Hpos Hname. rewrite addCreditOnly_guard by done.
  unfold addCreditOnly_onPress, select_by_date, update_credit.
  rewrite Hrows, filter_app, filter_cons_True by done.
  rewrite !filter_has_absent by done. simpl.
  rewrite fmap_app, fmap_cons, !update_absent by done.
  by rewrite decide_True by done.
Qed.

(** The INSERT branch: a row of zeros with the credit is appended. *)
Lemma addCreditOnly_absent now t date amount creditName :
  date ∉ Row.date <$> rows t →
  (0 < amount)%Qc → creditName ≠ EmptyString →
  addCreditOnly now Confirm date (Some amount) creditName t =
    ({| rows := rows t ++ [new_row now t date 0 0 0 0%Qc amount creditName];
        sqlite_sequence := next_rowid t |}, Some AlertSuccess).
Proof.
  intros Hd Hpos Hname. rewrite addCreditOnly_guard by done.
  unfold addCreditOnly_onPress, insert.
  apply select_by_date_None in Hd as Hsel. rewrite Hsel.
  rewrite decide_False; [done|].
  intros (r & Hr & Hdate)%Exists_exists. apply Hd.
  rewrite <- Hdate. by apply list_elem_of_fmap_2.
Qed.



(** C7. On a date without a record, [addCreditOnly] with a positive amount
    and a non-empty name appends one record, the only one of the date: eggs
    produced, broken and sold and the price are zero, the credit amount and
    the credit name are the given ones. *)
Theorem addCreditOnly_inserts_zero_record now t date amount creditName :
  date ∉ Row.date <$> rows t → (0 < amount)%Qc → creditName ≠ EmptyString →
  ∃ t' r,
    addCreditOnly now Confirm date (Some amount) creditName t
    = (t', Some AlertSuccess)
    ∧ rows t' = rows t ++ [r]
    ∧ filter (has Row.date date) (rows t') = [r]
    ∧ Row.values r
      = (date, Some 0, Some 0, Some 0, Some 0%Qc, Some amount, Some creditName).
Proof.
  intros Hd Hpos Hname. eexists _, _.
  split; [by apply addCreditOnly_absent|]. simpl. split_and!; [done| |done].
  rewrite filter_app, filter_has_absent by done.
  by rewrite filter_cons_True.
Qed.

(** ** Saving a daily record *)

Lemma saveDailyRecord_writes now date produced breakages soldEggs priceValue
    creditAmount creditName t :
  js_or soldEggs 0 ≤ produced - js_or breakages 0 →
  saveDailyRecord now date (Some produced) breakages soldEggs
    (Some priceValue) creditAmount creditName t =
    ({| rows := filter (λ x, ¬ has Row.date date x) (rows t)
          ++ [new_row now t date produced (js_or breakages 0)
                (js_or soldEggs 0) priceValue (js_or creditAmount 0%Qc)
                creditName];
        sqlite_sequence := next_rowid t |}, Some AlertSuccess).
Proof.
  intros Hsold. unfold saveDailyRecord.
  destruct (Z.gtb_spec (js_or soldEggs 0) (produced - js_or breakages 0));
    [lia|done].
Qed.

Lemma filter_date_replaced (d : string) (r : Row.t) (l : list Row.t) :
  Row.date r = d →
  filter (has Row.date d) (filter (λ x, ¬ has Row.date d x) l ++ [r]) = [r]
  ∧ filter (λ x, ¬ has Row.date d x)
      (filter (λ x, ¬ has Row.date d x) l ++ [r])
    = filter (λ x, ¬ has Row.date d x) l.
Proof.
  intros Hd. rewrite !filter_app. split.
  - rewrite filter_has_absent by apply not_has_filtered.
    by rewrite filter_cons_True.
  - rewrite filter_not_has_absent by apply not_has_filtered.
    rewrite filter_cons_False by (intros Hn; by apply Hn).
    by rewrite app_nil_r.
Qed.

(** C2, as the code has it. When the sold eggs do not exceed the produced
    eggs less the breakages, [saveDailyRecord] leaves exactly one record of
    the date, and its date, eggs produced, broken and sold, price, credit
    amount and credit name are the given values whatever the date held
    before; the records of the other dates are as before.  A second
    identical call leaves the same values in these seven columns, in the
    whole table, but not the same record: it replaces the row of the date
    again, by one with a greater id and the creation time of the second
    call. *)
Theorem saveDailyRecord_replaces now now' t date producedEggs breakages
    soldEggs pricePerEgg creditAmount creditName :
  soldEggs ≤ producedEggs - breakages →
  let save := λ now t,
    saveDailyRecord now date (Some producedEggs) (Some breakages)
      (Some soldEggs) (Some pricePerEgg) (Some creditAmount) creditName t in
  let given := (date, Some producedEggs, Some breakages, Some soldEggs,
                Some pricePerEgg, Some creditAmount, Some creditName) in
  let t1 := (save now t).1 in
  let t2 := (save now' t1).1 in
  (save now t).2 = Some AlertSuccess
  ∧ (∃ r, filter (has Row.date date) (rows t1) = [r] ∧ Row.values r = given)
  ∧ filter (λ x, ¬ has Row.date date x) (rows t1)
    = filter (λ x, ¬ has Row.date date x) (rows t)
  ∧ (∃ r, filter (has Row.date date) (rows t2) = [r] ∧ Row.values r = given)
  ∧ Row.values <$> rows t2 = Row.values <$> rows t1
  ∧ (∃ r1 r2,
       filter (has Row.date date) (rows t1) = [r1]
       ∧ filter (has Row.date date) (rows t2) = [r2]
       ∧ Row.id r1 < Row.id r2
       ∧ Row.created_at r1 = now ∧ Row.created_at r2 = now').
Proof.
  intros Hsold save given t1 t2. subst save given t1 t2. cbn beta.
  rewrite !saveDailyRecord_writes by (by rewrite !js_or_Z).
  rewrite !js_or_Z, !js_or_Qc. cbn [fst snd rows].
  set (kept := filter (λ x, ¬ has Row.date date x) (rows t)).
  split_and!.
  - done.
  - eexists. split; [by apply filter_date_replaced|done].
  - by apply filter_date_replaced.
  - eexists. split; [by apply filter_date_replaced|done].
  - subst kept. destruct (filter_date_replaced date
      (new_row now t date producedEggs breakages soldEggs pricePerEgg
         creditAmount creditName) (rows t) eq_refl) as [_ ->].
    by rewrite !fmap_app.
  - eexists _, _.
    split; [by apply filter_date_replaced|].
    split; [by apply filter_date_replaced|].
    split; [|done]. cbn [new_row Row.id].
    unfold next_rowid at 2. cbn [sqlite_sequence]. lia.
Qed.

(** C3, as the code has it. [saveDailyRecord] on a date that has a record
    replaces the row: the record of the date afterwards has an id greater
    than every id the table held, so not the id it had, and its creation
    time is the time of this write; the records of the other dates keep
    their id and creation time. *)
Theorem saveDailyRecord_new_identity now t date producedEggs breakages
    soldEggs pricePerEgg creditAmount creditName r :
  soldEggs ≤ producedEggs - breakages →
  r ∈ rows t → Row.date r = date →
  let t' := (saveDailyRecord now date (Some producedEggs) (Some breakages)
               (Some soldEggs) (Some pricePerEgg) (Some creditAmount)
               creditName t).1 in
  ∃ r', filter (has Row.date date) (rows t') = [r']
    ∧ Row.id r < Row.id r'
    ∧ (∀ x, x ∈ rows t → Row.id x < Row.id r')
    ∧ Row.created_at r' = now
    ∧ filter (λ x, ¬ has Row.date date x) (rows t')
      = filter (λ x, ¬ has Row.date date x) (rows t).
Proof.
  intros Hsold Hr Hd t'. subst t'.
  rewrite saveDailyRecord_writes by (by rewrite !js_or_Z). cbn [fst rows].
  eexists. split; [by apply filter_date_replaced|]. cbn.
  split_and!; [by apply next_rowid_fresh| |done|by apply filter_date_replaced].
  intros x Hx. by apply next_rowid_fresh.
Qed.

(** ** The summary *)


Section Sum.
Context {A : Type} (zero : A) (add : A → A → A).
Context `{!Assoc (=) add, !LeftId (=) zero add, !RightId (=) zero add}.

Lemma foldl_add (v : A) (vs : list A) :
  foldl add v vs = add v (foldr add zero vs).
Proof.
  revert v. induction vs as [|x vs IH]; intros v; simpl.
  - by rewrite right_id.
  - by rewrite IH, (assoc add).
Qed.

Lemma COALESCE_SUM (column : list (option A)) :
  COALESCE (SUM add column) zero = foldr add zero (omap (λ v, v) column).
Proof.
  unfold SUM. destruct (omap _ column) as [|v vs]; [done|].
  simpl. apply foldl_add.
Qed.

Lemma COALESCE_SUM_column (f : Row.t → option A) (l : list Row.t) :
  COALESCE (SUM add (f <$> l)) zero = sum_over zero add (default zero ∘ f) l.
Proof.
  rewrite COALESCE_SUM. induction l as [|r l IH]; [done|].
  change (sum_over zero add (default zero ∘ f) (r :: l))
    with (add (default zero (f r)) (sum_over zero add (default zero ∘ f) l)).
  rewrite <- IH, fmap_cons.
  destruct (f r) as [v|]; [done|]. by rewrite (left_id zero add).
Qed.
End Sum.

#[local] Instance Qcplus_assoc' : Assoc (=) Qcplus.
Proof. intros x y z. apply Qcplus_assoc. Qed.
#[local] Instance Qcplus_left_id : LeftId (=) 0%Qc Qcplus.
Proof. intros x. apply Qcplus_0_l. Qed.
#[local] Instance Qcplus_right_id : RightId (=) 0%Qc Qcplus.
Proof. intros x. apply Qcplus_0_r. Qed.


Lemma sum_from_fits (acc : Z) (values : list Z) :
  Forall Int64.range (running_sums acc values) →
  Int64.sum_from acc values = Ok (foldl Z.add acc values).
Proof.
  revert acc. induction values as [|v values IH]; intros acc Hfit; [done|].
  cbn [running_sums] in Hfit. apply Forall_cons in Hfit as [Hv Hfit].
  cbn [Int64.sum_from foldl]. rewrite decide_True by done. by apply IH.
Qed.

Lemma sum_from_overflow (acc : Z) (values : list Z) :
  ¬ Forall Int64.range (running_sums acc values) →
  Int64.sum_from acc values = Err IntegerOverflow.
Proof.
  revert acc. induction values as [|v values IH]; intros acc Hfit.
  - exfalso. apply Hfit. constructor.
  - cbn [Int64.sum_from]. case_decide as Hv; [|done].
    apply IH. intros Hrest. apply Hfit. by constructor.
Qed.

(** [sum()] over an INTEGER column is the unbounded sum when the running
    sums fit, and fails otherwise. *)
Lemma Int64_sum_fits (column : list (option Z)) :
  sums_fit column → Int64.sum column = Ok (SUM Z.add column).
Proof.
  unfold sums_fit, Int64.sum, SUM. intros Hfit.
  destruct (omap _ column) as [|v values]; [done|].
  rewrite sum_from_fits by done. done.
Qed.

Lemma Int64_sum_overflow (column : list (option Z)) :
  ¬ sums_fit column → Int64.sum column = Err IntegerOverflow.
Proof.
  unfold sums_fit, Int64.sum. intros Hfit.
  destruct (omap _ column) as [|v values].
  - exfalso. apply Hfit. constructor.
  - by rewrite sum_from_overflow.
Qed.

Lemma calculateSummary_fits (t : table) :
  summary_fits t → Int64.calculateSummary t = Ok (calculateSummary t).
Proof.
  intros (Hp & Hb & Hs). unfold Int64.calculateSummary.
  by rewrite !Int64_sum_fits.
Qed.

Lemma calculateSummary_overflow (t : table) :
  ¬ summary_fits t → Int64.calculateSummary t = Err IntegerOverflow.
Proof.
  intros Hfit. unfold Int64.calculateSummary.
  destruct (decide (sums_fit (Row.produced_eggs <$> rows t))) as [Hp|Hp];
    [rewrite (Int64_sum_fits _ Hp)|by rewrite Int64_sum_overflow].
  destruct (decide (sums_fit (Row.breakages <$> rows t))) as [Hb|Hb];
    [rewrite (Int64_sum_fits _ Hb)|by rewrite Int64_sum_overflow].
  destruct (decide (sums_fit (Row.sold_eggs <$> rows t))) as [Hs|Hs];
    [|by rewrite Int64_sum_overflow].
  by destruct Hfit.
Qed.

(** When the SELECT returns, it returns the totals. *)
Lemma calculateSummary_returns (t : table) (totals : summary) :
  Int64.calculateSummary t = Ok totals → totals = calculateSummary t.
Proof.
  destruct (decide (summary_fits t)) as [Hfit|Hfit].
  - rewrite calculateSummary_fits by done. by intros [= <-].
  - by rewrite calculateSummary_overflow.
Qed.

(** C5, as the code has it. On a table whose counts are 64-bit integers,
    the SELECT of [calculateSummary] returns the totals when no running sum
    of the produced eggs, of the breakages or of the sold eggs leaves the
    64-bit range, and fails with an integer overflow otherwise.  Each total
    is the sum of its column over all the rows of the table, numbers taken
    as exact; the cash sales are the sum over the rows of the product of
    sold eggs and price, which is not the product of the two sums; over the
    empty table the SELECT returns zero for every total. *)
Theorem calculateSummary_totals (t : table) :
  counts_int64 t →
  (summary_fits t → Int64.calculateSummary t = Ok (calculateSummary t))
  ∧ (¬ summary_fits t → Int64.calculateSummary t = Err IntegerOverflow)
  ∧ calculateSummary t =
      {| totalProduced :=
           sum_over 0 Z.add (default 0 ∘ Row.produced_eggs) (rows t);
         totalBreakages :=
           sum_over 0 Z.add (default 0 ∘ Row.breakages) (rows t);
         totalSold := sum_over 0 Z.add (default 0 ∘ Row.sold_eggs) (rows t);
         totalCashSales :=
           sum_over 0%Qc Qcplus
             (λ r, Number_of_Z (default 0%Z (Row.sold_eggs r))
                   * default 0 (Row.price_per_egg r))%Qc (rows t);
         totalCredits :=
           sum_over 0%Qc Qcplus (default 0%Qc ∘ Row.credit_amount) (rows t) |}
  ∧ Int64.calculateSummary
      {| rows := []; sqlite_sequence := sqlite_sequence t |}
    = Ok {| totalProduced := 0; totalBreakages := 0; totalSold := 0;
            totalCashSales := 0%Qc; totalCredits := 0%Qc |}
  ∧ totalCashSales (calculateSummary two_days)
    ≠ (Number_of_Z (totalSold (calculateSummary two_days))
       * sum_over 0%Qc Qcplus (default 0%Qc ∘ Row.price_per_egg)
           (rows two_days))%Qc.
Proof.
  intros _.
  split_and!;
    [apply calculateSummary_fits|apply calculateSummary_overflow|
     |done|by vm_compute].
  unfold calculateSummary.
  rewrite !(COALESCE_SUM_column 0 Z.add), !(COALESCE_SUM_column 0%Qc Qcplus).
  f_equal. induction (rows t) as [|r l IH]; [done|].
  simpl. rewrite IH. f_equal. unfold sold_times_price.
  destruct (Row.sold_eggs r), (Row.price_per_egg r); simpl; [done|..].
  - by rewrite Qcmult_0_r.
  - by rewrite Qcmult_0_l.
  - by rewrite Qcmult_0_l.
Qed.

(** ** Reading in date order *)

#[global] Instance date_le_trans : Transitive date_le.
Proof. intros x y z. unfold date_le. apply transitivity. Qed.

#[global] Instance date_le_total : Total date_le.
Proof. intros x y. unfold date_le. apply total, _. Qed.

Lemma unique_key_inj {K} `{EqDecision K} (column : Row.t → K)
    (l : list Row.t) (x y : Row.t) :
  NoDup (column <$> l) → x ∈ l → y ∈ l → column x = column y → x = y.
Proof.
  intros Hnd Hx Hy Heq.
  assert (y ∈ filter (has column (column x)) l) as Hin.
  { apply list_elem_of_filter. by split. }
  rewrite filter_has_unique in Hin by done.
  by apply list_elem_of_singleton in Hin.
Qed.


Lemma select_order_by_date_perm (t : table) :
  select_order_by_date t ≡ₚ rows t.
Proof. apply merge_sort_Permutation. Qed.


(** ** The export text *)


Lemma js_or_default_Qc (x : option Qc) : js_or x 0%Qc = default 0%Qc x.
Proof. destruct x as [q|]; [apply js_or_Qc|done]. Qed.












(** ** Double quotes in a CSV record *)








(** *** Reading a row with the recogniser *)










Example csv_row_credit_record :
  csv_row decimal (credit_record "Ann")
  = "2024-03-01,10,1,5,4,2,10,3," +:+ DQUOTE +:+ "Ann" +:+ DQUOTE +:+ LF.
Proof. by vm_compute. Qed.

(** * Properties of the schema manager *)

Lemma includes_true (columnNames : list string) (name : string) :
  name ∈ columnNames → Schema.includes columnNames name = true.
Proof. intros H. by apply bool_decide_eq_true. Qed.

Lemma includes_false (columnNames : list string) (name : string) :
  name ∉ columnNames → Schema.includes columnNames name = false.
Proof. intros H. by apply bool_decide_eq_false. Qed.

Lemma includes_app (columnNames : list string) (added name : string) :
  Schema.includes (columnNames ++ [added]) name
  = Schema.includes columnNames name || bool_decide (name = added).
Proof.
  unfold Schema.includes.
  destruct (bool_decide (name ∈ columnNames)) eqn:E1,
    (bool_decide (name = added)) eqn:E2; simpl.
  - apply bool_decide_eq_true, elem_of_app. left.
    by apply bool_decide_eq_true in E1.
  - apply bool_decide_eq_true, elem_of_app. left.
    by apply bool_decide_eq_true in E1.
  - apply bool_decide_eq_true, elem_of_app. right.
    apply bool_decide_eq_true in E2 as ->. apply list_elem_of_here.
  - apply bool_decide_eq_false. intros [H1|H2%list_elem_of_singleton]%elem_of_app.
    + by apply bool_decide_eq_false in E1.
    + by apply bool_decide_eq_false in E2.
Qed.

Lemma exec_AddColumn_fresh numeric_literal name default (t : Schema.table) :
  name ∉ Schema.columns t →
  Schema.exec numeric_literal (Schema.AddColumn name default) t
  = Ok {| Schema.columns := Schema.columns t ++ [name];
          Schema.rows := (λ r, <[name := default]> r) <$> Schema.rows t |}.
Proof. intros H. cbn [Schema.exec]. by rewrite includes_false. Qed.

Lemma exec_AddColumn_duplicate numeric_literal name default (t : Schema.table) :
  name ∈ Schema.columns t →
  Schema.exec numeric_literal (Schema.AddColumn name default) t
  = Err (DuplicateColumnName name).
Proof. intros H. cbn [Schema.exec]. by rewrite includes_true. Qed.

Lemma exec_Backfill numeric_literal (t : Schema.table) :
  "credit_amount" ∈ Schema.columns t → "credits" ∈ Schema.columns t →
  Schema.exec numeric_literal Schema.BackfillCreditAmount t
  = Ok {| Schema.columns := Schema.columns t;
          Schema.rows :=
            Schema.backfill_row numeric_literal <$> Schema.rows t |}.
Proof. intros H1 H2. cbn [Schema.exec]. by rewrite !includes_true. Qed.

Lemma run_cons_Ok numeric_literal s ss (t t' : Schema.table) :
  Schema.exec numeric_literal s t = Ok t' →
  Schema.run numeric_literal (s :: ss) t
  = ((Schema.run numeric_literal ss t').1,
     Ok t' :: (Schema.run numeric_literal ss t').2).
Proof.
  intros H. cbn [Schema.run]. rewrite H.
  by destruct (Schema.run numeric_literal ss t').
Qed.

Lemma run_cons_Err numeric_literal s ss (t : Schema.table) e :
  Schema.exec numeric_literal s t = Err e →
  Schema.run numeric_literal (s :: ss) t
  = ((Schema.run numeric_literal ss t).1,
     Err e :: (Schema.run numeric_literal ss t).2).
Proof.
  intros H. cbn [Schema.run]. rewrite H.
  by destruct (Schema.run numeric_literal ss t).
Qed.

Lemma checkAndMigrateSchema_run numeric_literal (t : Schema.table) :
  Schema.checkAndMigrateSchema numeric_literal t
  = ((Schema.run numeric_literal (Schema.migrations (Schema.columns t)) t).1,
     Schema.Promise_all
       (Schema.run numeric_literal (Schema.migrations (Schema.columns t)) t).2).
Proof.
  unfold Schema.checkAndMigrateSchema, Schema.table_info.
  by destruct (Schema.run _ _ _).
Qed.

(** Whether a column name is among the columns of a table that grew by
    known names. *)
Ltac column_names :=
  cbn [Schema.columns];
  rewrite ?not_elem_of_app, ?elem_of_app, ?not_elem_of_cons, ?elem_of_cons,
    ?elem_of_nil;
  naive_solver.

(** C6. On a table without the columns sold_eggs, credit_amount and
    credit_name, and without the old column credits, the migration succeeds
    and adds the three columns, with 0, 0 and the empty text in every row;
    the other columns of every row are as before.  Run again on the result,
    it issues no statement and succeeds, leaving the table as it is. *)
Theorem checkAndMigrateSchema_adds_columns numeric_literal (t : Schema.table) :
  "sold_eggs" ∉ Schema.columns t → "credit_amount" ∉ Schema.columns t →
  "credit_name" ∉ Schema.columns t → "credits" ∉ Schema.columns t →
  ∃ t',
    Schema.checkAndMigrateSchema numeric_literal t = (t', Ok ())
    ∧ Schema.columns t'
      = Schema.columns t ++ ["sold_eggs"; "credit_amount"; "credit_name"]
    ∧ length (Schema.rows t') = length (Schema.rows t)
    ∧ (∀ i r r', Schema.rows t !! i = Some r → Schema.rows t' !! i = Some r' →
         r' !! "sold_eggs" = Some (Schema.INTEGER 0)
         ∧ r' !! "credit_amount" = Some (Schema.REAL 0)
         ∧ r' !! "credit_name" = Some (Schema.TEXT EmptyString)
         ∧ ∀ c, c ∉ ["sold_eggs"; "credit_amount"; "credit_name"] →
             r' !! c = r !! c)
    ∧ Schema.migrations (Schema.table_info t') = []
    ∧ Schema.checkAndMigrateSchema numeric_literal t' = (t', Ok ()).
Proof.
  intros Hsold Hamount Hname Hcredits.
  assert (Schema.migrations (Schema.columns t)
          = [Schema.AddColumn "sold_eggs" (Schema.INTEGER 0);
             Schema.AddColumn "credit_amount" (Schema.REAL 0);
             Schema.AddColumn "credit_name" (Schema.TEXT EmptyString)]) as Hm.
  { unfold Schema.migrations. by rewrite !includes_false by done. }
  assert (∀ l : list string,
            l = Schema.columns t
                ++ ["sold_eggs"; "credit_amount"; "credit_name"] →
            Schema.migrations l = []) as Hdone.
  { intros l ->. unfold Schema.migrations.
    rewrite !includes_true, includes_false by column_names. done. }
  eexists. split.
  { rewrite checkAndMigrateSchema_run, Hm.
    erewrite run_cons_Ok by (by apply exec_AddColumn_fresh).
    erewrite run_cons_Ok by (apply exec_AddColumn_fresh; column_names).
    erewrite run_cons_Ok by (apply exec_AddColumn_fresh; column_names).
    cbn [Schema.run Schema.Promise_all fst snd Schema.columns Schema.rows].
    rewrite <- !app_assoc, <- !list_fmap_compose. done. }
  cbn [Schema.columns Schema.rows Schema.table_info app]. split_and!.
  - done.
  - by rewrite length_fmap.
  - intros i r r' Hr Hr'. rewrite list_lookup_fmap, Hr in Hr'.
    injection Hr' as <-. cbn [compose]. split_and!.
    + by rewrite lookup_insert_ne, lookup_insert_ne, lookup_insert_eq.
    + by rewrite lookup_insert_ne, lookup_insert_eq.
    + by rewrite lookup_insert_eq.
    + intros c Hc. rewrite !not_elem_of_cons in Hc.
      destruct Hc as (? & ? & ? & _). by rewrite !lookup_insert_ne.
  - by apply Hdone.
  - rewrite checkAndMigrateSchema_run. cbn [Schema.columns].
    by rewrite Hdone.
Qed.

(** ** The old column credits *)



(** C4, what the code does. On a table that has the old column credits and
    no column credit_amount, the migration issues the statement that adds
    credit_amount twice, and the migration fails on the second with a
    duplicate column error; [initializeDatabase] then runs its fallback. *)
Theorem checkAndMigrateSchema_duplicate_column numeric_literal
    (t : Schema.table) :
  "credits" ∈ Schema.columns t → "credit_amount" ∉ Schema.columns t →
  (∃ l1 l2,
     Schema.migrations (Schema.table_info t)
     = l1 ++ Schema.AddColumn "credit_amount" (Schema.REAL 0)
          :: l2 ++ [Schema.AddColumn "credit_amount" (Schema.REAL 0);
                    Schema.BackfillCreditAmount])
  ∧ (Schema.checkAndMigrateSchema numeric_literal t).2
    = Err (DuplicateColumnName "credit_amount")
  ∧ (Schema.initializeDatabase numeric_literal (Some t)).2 = true.
Proof.
  intros Hcredits Hamount.
  assert ((Schema.checkAndMigrateSchema numeric_literal t).2
          = Err (DuplicateColumnName "credit_amount")) as Herr.
  { rewrite checkAndMigrateSchema_run. unfold Schema.migrations.
    rewrite (includes_false _ "credit_amount"), (includes_true _ "credits")
      by done.
    destruct (decide ("sold_eggs" ∈ Schema.columns t)) as [Hs|Hs],
      (decide ("credit_name" ∈ Schema.columns t)) as [Hn|Hn];
      rewrite ?(includes_true _ "sold_eggs"), ?(includes_false _ "sold_eggs"),
        ?(includes_true _ "credit_name"), ?(includes_false _ "credit_name")
        by done;
      cbn [negb app];
      repeat (erewrite run_cons_Ok
                by (apply exec_AddColumn_fresh; column_names));
      (erewrite run_cons_Err
         by (apply exec_AddColumn_duplicate; column_names));
      done. }
  split_and!.
  - unfold Schema.migrations, Schema.table_info.
    rewrite (includes_false _ "credit_amount"), (includes_true _ "credits")
      by done.
    cbn [negb]. by eexists _, _.
  - done.
  - unfold Schema.initializeDatabase.
    destruct (Schema.checkAndMigrateSchema numeric_literal t) as [t' res].
    cbn [snd] in Herr. by rewrite Herr.
Qed.

(** The failure does not depend on the order in which the engine runs the
    statements the migration has issued. *)





(** * The properties on the sample data *)








(** The totals of the example: 30, 1, 15, 5 * 2.0 + 10 * 1.5 = 25, 3. *)
Example calculateSummary_two_days :
  calculateSummary two_days
  = {| totalProduced := 30; totalBreakages := 1; totalSold := 15;
       totalCashSales := Q2Qc 25; totalCredits := Q2Qc 3 |}.
Proof. by vm_compute. Qed.

(** The claim C3 fails: saving 1 March again on the table of the example
    replaces the record of id 1, created on 1 March, by a record of id 3,
    created at the time of the second save. *)
Lemma saveDailyRecord_changes_id_and_created_at :
  let t' := (saveDailyRecord "2024-03-05 07:30:00" "2024-03-01"
               (Some 12) (Some 0) (Some 6) (Some (Q2Qc 2)) (Some 0%Qc)
               EmptyString two_days).1 in
  ∃ r r',
    r ∈ rows two_days ∧ Row.date r = "2024-03-01"
    ∧ filter (has Row.date "2024-03-01") (rows t') = [r']
    ∧ Row.id r = 1 ∧ Row.id r' = 3
    ∧ Row.created_at r = "2024-03-01 18:00:00"
    ∧ Row.created_at r' = "2024-03-05 07:30:00".
Proof.
  eexists _, _. split; [apply list_elem_of_here|].
  split; [done|]. split; [by vm_compute|]. done.
Qed.

(** The claim C5 read for every table fails on a table two saves reach:
    two days of nine quintillion eggs.  Each count is a 64-bit integer, but
    the sum of the produced eggs is not, so the SELECT fails with an
    integer overflow and returns no total. *)
Lemma calculateSummary_integer_overflow :
  reachable heavy_days
  ∧ counts_int64 heavy_days
  ∧ Row.produced_eggs <$> rows heavy_days
    = [Some 9000000000000000000; Some 9000000000000000000]
  ∧ Int64.calculateSummary heavy_days = Err IntegerOverflow.
Proof.
  split_and!.
  - apply reachable_perform, reachable_perform, reachable_empty.
  - apply (bool_decide_unpack _). by vm_compute.
  - by vm_compute.
  - by vm_compute.
Qed.

(** The claim C2 fails on its last part: two identical saves of 1 March on
    the table of the example, made at the same time, do not leave the same
    record.  The first leaves the ids 2 and 3, the second the ids 2 and 4:
    the record of the date is another row after each call. *)
Lemma saveDailyRecord_not_idempotent :
  let save := λ t,
    saveDailyRecord "2024-03-05 07:30:00" "2024-03-01" (Some 12) (Some 2)
      (Some 6) (Some (Q2Qc 2)) (Some (Q2Qc 1)) "Cy" t in
  let t1 := (save two_days).1 in
  let t2 := (save t1).1 in
  (save two_days).2 = Some AlertSuccess ∧ (save t1).2 = Some AlertSuccess
  ∧ Row.id <$> rows t1 = [2; 3] ∧ Row.id <$> rows t2 = [2; 4]
  ∧ rows t2 ≠ rows t1.
Proof. split_and!; [by vm_compute..|]. by intros [=]. Qed.

(** The migration of the old table fails with the duplicate column error;
    the table it leaves has the three columns and the backfilled credit. *)
Example checkAndMigrateSchema_legacy_table :
  Schema.migrations (Schema.table_info legacy_table)
  = [Schema.AddColumn "sold_eggs" (Schema.INTEGER 0);
     Schema.AddColumn "credit_amount" (Schema.REAL 0);
     Schema.AddColumn "credit_name" (Schema.TEXT EmptyString);
     Schema.AddColumn "credit_amount" (Schema.REAL 0);
     Schema.BackfillCreditAmount]
  ∧ (Schema.checkAndMigrateSchema no_numeric_text legacy_table).2
    = Err (DuplicateColumnName "credit_amount")
  ∧ Schema.columns (Schema.checkAndMigrateSchema no_numeric_text legacy_table).1
    = ["id"; "date"; "produced_eggs"; "breakages"; "price_per_egg";
       "credits"; "created_at"; "sold_eggs"; "credit_amount"; "credit_name"]
  ∧ (λ r : gmap string Schema.value, r !! "credit_amount")
      <$> Schema.rows
            (Schema.checkAndMigrateSchema no_numeric_text legacy_table).1
    = [Some (Schema.REAL (Q2Qc 3))].
Proof. by vm_compute. Qed.

(** ** The theorems at work on the sample data *)


Lemma saveDailyRecord_replaces_witness :
  let save := λ now t,
    saveDailyRecord now "2024-03-01" (Some 12) (Some 2) (Some 6)
      (Some (Q2Qc 2)) (Some (Q2Qc 1)) "Cy" t in
  let given := ("2024-03-01", Some 12, Some 2, Some 6,
                Some (Q2Qc 2), Some (Q2Qc 1), Some "Cy") in
  let t1 := (save "2024-03-05 07:30:00" two_days).1 in
  let t2 := (save "2024-03-05 07:31:00" t1).1 in
  (save "2024-03-05 07:30:00" two_days).2 = Some AlertSuccess
  ∧ (∃ r, filter (has Row.date "2024-03-01") (rows t1) = [r]
       ∧ Row.values r = given)
  ∧ filter (λ x, ¬ has Row.date "2024-03-01" x) (rows t1)
    = filter (λ x, ¬ has Row.date "2024-03-01" x) (rows two_days)
  ∧ (∃ r, filter (has Row.date "2024-03-01") (rows t2) = [r]
       ∧ Row.values r = given)
  ∧ Row.values <$> rows t2 = Row.values <$> rows t1
  ∧ (∃ r1 r2,
       filter (has Row.date "2024-03-01") (rows t1) = [r1]
       ∧ filter (has Row.date "2024-03-01") (rows t2) = [r2]
       ∧ Row.id r1 < Row.id r2
       ∧ Row.created_at r1 = "2024-03-05 07:30:00"
       ∧ Row.created_at r2 = "2024-03-05 07:31:00").
Proof.
  apply (saveDailyRecord_replaces "2024-03-05 07:30:00" "2024-03-05 07:31:00"
           two_days "2024-03-01" 12 2 6 (Q2Qc 2) (Q2Qc 1) "Cy").
  lia.
Defined.

Lemma saveDailyRecord_new_identity_witness :
  let t' := (saveDailyRecord "2024-03-05 07:30:00" "2024-03-01" (Some 12)
               (Some 2) (Some 6) (Some (Q2Qc 2)) (Some (Q2Qc 1)) "Cy"
               two_days).1 in
  ∃ r', filter (has Row.date "2024-03-01") (rows t') = [r']
    ∧ Row.id (credit_record "Ann") < Row.id r'
    ∧ (∀ x, x ∈ rows two_days → Row.id x < Row.id r')
    ∧ Row.created_at r' = "2024-03-05 07:30:00"
    ∧ filter (λ x, ¬ has Row.date "2024-03-01" x) (rows t')
      = filter (λ x, ¬ has Row.date "2024-03-01" x) (rows two_days).
Proof.
  apply (saveDailyRecord_new_identity "2024-03-05 07:30:00" two_days
           "2024-03-01" 12 2 6 (Q2Qc 2) (Q2Qc 1) "Cy" (credit_record "Ann")).
  - lia.
  - apply list_elem_of_here.
  - reflexivity.
Defined.

Lemma calculateSummary_totals_witness :
  counts_int64 two_days
  ∧ summary_fits two_days
  ∧ Int64.calculateSummary two_days = Ok (calculateSummary two_days)
  ∧ Int64.calculateSummary two_days
    = Ok {| totalProduced := 30; totalBreakages := 1; totalSold := 15;
            totalCashSales := Q2Qc 25; totalCredits := Q2Qc 3 |}.
Proof.
  assert (counts_int64 two_days) as Hcounts.
  { apply (bool_decide_unpack _). by vm_compute. }
  assert (summary_fits two_days) as Hfits.
  { apply (bool_decide_unpack _). by vm_compute. }
  destruct (calculateSummary_totals two_days Hcounts) as (Hreturns & _).
  split_and!; [exact Hcounts|exact Hfits|exact (Hreturns Hfits)|].
  rewrite (Hreturns Hfits). by vm_compute.
Defined.

Lemma checkAndMigrateSchema_duplicate_column_witness :
  (∃ l1 l2,
     Schema.migrations (Schema.table_info legacy_table)
     = l1 ++ Schema.AddColumn "credit_amount" (Schema.REAL 0)
          :: l2 ++ [Schema.AddColumn "credit_amount" (Schema.REAL 0);
                    Schema.BackfillCreditAmount])
  ∧ (Schema.checkAndMigrateSchema no_numeric_text legacy_table).2
    = Err (DuplicateColumnName "credit_amount")
  ∧ (Schema.initializeDatabase no_numeric_text (Some legacy_table)).2 = true.
Proof.
  apply (checkAndMigrateSchema_duplicate_column no_numeric_text legacy_table).
  - apply (bool_decide_unpack _). vm_compute. exact I.
  - apply (bool_decide_unpack _). vm_compute. exact I.
Defined.

Lemma checkAndMigrateSchema_adds_columns_witness :
  ∃ t',
    Schema.checkAndMigrateSchema no_numeric_text older_table = (t', Ok ())
    ∧ Schema.columns t'
      = Schema.columns older_table
        ++ ["sold_eggs"; "credit_amount"; "credit_name"]
    ∧ length (Schema.rows t') = length (Schema.rows older_table)
    ∧ (∀ i r r', Schema.rows older_table !! i = Some r →
         Schema.rows t' !! i = Some r' →
         r' !! "sold_eggs" = Some (Schema.INTEGER 0)
         ∧ r' !! "credit_amount" = Some (Schema.REAL 0)
         ∧ r' !! "credit_name" = Some (Schema.TEXT EmptyString)
         ∧ ∀ c, c ∉ ["sold_eggs"; "credit_amount"; "credit_name"] →
             r' !! c = r !! c)
    ∧ Schema.migrations (Schema.table_info t') = []
    ∧ Schema.checkAndMigrateSchema no_numeric_text t' = (t', Ok ()).
Proof.
  apply (checkAndMigrateSchema_adds_columns no_numeric_text older_table).
  - apply (bool_decide_unpack _). vm_compute. exact I.
  - apply (bool_decide_unpack _). vm_compute. exact I.
  - apply (bool_decide_unpack _). vm_compute. exact I.
  - apply (bool_decide_unpack _). vm_compute. exact I.
Defined.

Lemma addCreditOnly_inserts_zero_record_witness :
  ∃ t' r,
    addCreditOnly "2024-03-03 09:00:00" Confirm "2024-03-03"
      (Some (Q2Qc 4)) "Ben" two_days = (t', Some AlertSuccess)
    ∧ rows t' = rows two_days ++ [r]
    ∧ filter (has Row.date "2024-03-03") (rows t') = [r]
    ∧ Row.values r
      = ("2024-03-03", Some 0, Some 0, Some 0, Some 0%Qc,
         Some (Q2Qc 4), Some "Ben").
Proof.
  apply (addCreditOnly_inserts_zero_record "2024-03-03 09:00:00" two_days
           "2024-03-03" (Q2Qc 4) "Ben").
  - apply (bool_decide_unpack _). vm_compute. exact I.
  - reflexivity.
  - discriminate.
Defined.


(** The export of the three days: the rows come by date, NULL prints as 0
    and as the empty name. *)
Example exportData_three_days :
  (exportData decimal three_days).2
  = Some (csv_header
          +:+ "2024-03-01,10,1,5,4,2,10,3," +:+ DQUOTE +:+ "Ann" +:+ DQUOTE +:+ LF
          +:+ "2024-03-02,20,0,10,10,3,30,0," +:+ DQUOTE +:+ DQUOTE +:+ LF
          +:+ "2024-03-03,15,0,15,0,2,30,0," +:+ DQUOTE +:+ DQUOTE +:+ LF).
Proof. by vm_compute. Qed.

Lemma deleteRecord_by_id_witness :
  (delete_by_id 7 two_days = Ok (two_days, {| changes := 0 |})
   ∧ deleteRecord Confirm 7 two_days = (two_days, Some AlertSuccess))
  ∧ ∃ r before after,
      rows two_days = before ++ r :: after ∧ Row.id r = 2
      ∧ delete_by_id 2 two_days =
          Ok ({| rows := before ++ after;
                 sqlite_sequence := sqlite_sequence two_days |},
              {| changes := 1 |})
      ∧ deleteRecord Confirm 2 two_days =
          ({| rows := before ++ after;
              sqlite_sequence := sqlite_sequence two_days |},
           Some AlertSuccess).
Proof.
  split.
  - apply (proj1 (deleteRecord_by_id two_days 7)).
    apply (bool_decide_unpack _). vm_compute. exact I.
  - apply (proj2 (deleteRecord_by_id two_days 2)).
    + apply (bool_decide_unpack _). vm_compute. exact I.
    + apply (bool_decide_unpack _). vm_compute. exact I.
Defined.


(** * Further properties of the record store *)

(** ** What the callbacks accept *)

(** *** A form that holds any text *)

Lemma binary64_exact (n : Z) : Z.abs n ≤ 2 ^ 53 → binary64 n = n.
Proof.
  intros Hn. unfold binary64.
  destruct (Z.leb_spec (Z.abs n) (2 ^ 53)); [done|lia].
Qed.

Lemma exact_count_bound (field : entry Z) :
  exact_count field → Z.abs (entered_or 0 field) ≤ 2 ^ 52.
Proof.
  intros Hexact. destruct field as [| |n]; [done..|]. by apply Hexact.
Qed.

(** On an exact count [parseInt] reads the number entered. *)
Lemma parseInt_exact (field : entry Z) :
  exact_count field →
  Form.parseInt field = entered field
  ∧ js_or (Form.parseInt field) 0 = entered_or 0 field.
Proof.
  intros Hexact. destruct field as [| |n]; [done..|].
  cbn [Form.parseInt entered entered_or].
  assert (2 ^ 53 = 2 * 2 ^ 52) as Hpow by reflexivity.
  rewrite binary64_exact by (specialize (Hexact n eq_refl); lia).
  by rewrite js_or_Z.
Qed.

Lemma parseFloat_or (field : entry Qc) :
  js_or (Form.parseFloat field) 0%Qc = entered_or 0%Qc field.
Proof. destruct field as [| |q]; [done..|]. apply js_or_Qc. Qed.

(** What [saveDailyRecord] does with a form whose counts are exact. *)
Lemma Form_saveDailyRecord_cases now date producedEggs breakages soldEggs
    pricePerEgg creditAmount creditName t :
  exact_count producedEggs → exact_count breakages → exact_count soldEggs →
  let saved :=
    Form.saveDailyRecord now date producedEggs breakages soldEggs
      pricePerEgg creditAmount creditName t in
  let rejected :=
    producedEggs = Blank ∨ pricePerEgg = Blank
    ∨ ∃ produced, producedEggs = Entered produced
        ∧ produced - entered_or 0 breakages < entered_or 0 soldEggs in
  (rejected ∧ saved = (t, Some AlertError))
  ∨ (¬ rejected
     ∧ saved =
         ({| rows := filter (λ x, ¬ has Row.date date x) (rows t)
               ++ [Form.new_row now t date (entered producedEggs)
                     (entered_or 0 breakages) (entered_or 0 soldEggs)
                     (entered pricePerEgg)
                     (Some (entered_or 0%Qc creditAmount)) creditName];
             sqlite_sequence := next_rowid t |}, Some AlertSuccess)).
Proof.
  intros Hp Hb Hs saved rejected. subst saved rejected.
  unfold Form.saveDailyRecord.
  destruct (parseInt_exact _ Hp) as [-> _].
  destruct (parseInt_exact _ Hb) as [_ ->].
  destruct (parseInt_exact _ Hs) as [_ ->].
  rewrite parseFloat_or.
  pose proof (exact_count_bound _ Hb) as Hbb.
  destruct producedEggs as [| |produced]; cbn [Form.blank orb entered].
  - left. auto.
  - destruct pricePerEgg as [| |price]; cbn [Form.blank];
      [left; auto|right..];
      (split; [intros [?|[?|(? & ? & ?)]]; done|done]).
  - destruct pricePerEgg as [| |price]; cbn [Form.blank]; [left; auto|..].
    all: assert (2 ^ 53 = 2 * 2 ^ 52) as Hpow by reflexivity.
    all: rewrite binary64_exact
           by (specialize (Hp produced eq_refl); lia).
    all: destruct (Z.gtb_spec (entered_or 0 soldEggs)
                     (produced - entered_or 0 breakages)) as [Hgt|Hle].
    all: try (left; split; [|done]; right; right; exists produced;
              split; [done|lia]).
    all: right; (split; [|done]);
      intros [?|[?|(? & [= <-] & ?)]]; [done..|lia].
Qed.

(** On fields that are blank or hold numbers, with exact counts, the
    callbacks on any text are the callbacks on numbers. *)
Lemma saveDailyRecord_field_of now date producedEggs breakages soldEggs
    pricePerEgg creditAmount creditName t :
  exact_count (field_of producedEggs) → exact_count (field_of breakages) →
  exact_count (field_of soldEggs) →
  Form.saveDailyRecord now date (field_of producedEggs) (field_of breakages)
    (field_of soldEggs) (field_of pricePerEgg) (field_of creditAmount)
    creditName t
  = saveDailyRecord now date producedEggs breakages soldEggs pricePerEgg
      creditAmount creditName t.
Proof.
  intros Hp Hb Hs.
  assert (∀ x : option Z, entered_or 0 (field_of x) = js_or x 0) as Hor.
  { intros [n|]; [|done]. by rewrite js_or_Z. }
  assert (∀ x : option Qc, entered_or 0%Qc (field_of x) = js_or x 0%Qc)
    as Hor'.
  { intros [q|]; [|done]. by rewrite js_or_Qc. }
  destruct (Form_saveDailyRecord_cases now date (field_of producedEggs)
              (field_of breakages) (field_of soldEggs) (field_of pricePerEgg)
              (field_of creditAmount) creditName t Hp Hb Hs)
    as [[Hr ->]|[Hr ->]]; rewrite ?Hor, ?Hor' in *.
  - destruct producedEggs as [produced|]; [|done].
    destruct pricePerEgg as [price|]; [|done].
    destruct Hr as [?|[?|(n & [= <-] & Hlt)]]; [done..|].
    unfold saveDailyRecord.
    destruct (Z.gtb_spec (js_or soldEggs 0) (produced - js_or breakages 0));
      [done|lia].
  - destruct producedEggs as [produced|]; [|exfalso; apply Hr; by left].
    destruct pricePerEgg as [price|];
      [|exfalso; apply Hr; right; by left].
    rewrite saveDailyRecord_writes; [done|].
    destruct (decide (js_or soldEggs 0 ≤ produced - js_or breakages 0));
      [done|].
    exfalso. apply Hr. right. right. exists produced. split; [done|lia].
Qed.

Lemma addCreditOnly_field_of now pressed date creditAmount creditName t :
  Form.addCreditOnly now pressed date (field_of creditAmount) creditName t
  = addCreditOnly now pressed date creditAmount creditName t.
Proof.
  unfold Form.addCreditOnly, addCreditOnly.
  destruct creditAmount as [amount|]; [|done].
  cbn [field_of Form.blank Form.parseFloat orb].
  destruct (decide (amount ≤ 0)%Qc) as [Hle|Hpos].
  { by rewrite bool_decide_eq_true_2. }
  rewrite bool_decide_eq_false_2 by done. cbn [orb].
  destruct (truthy creditName); [|done]. cbn [negb].
  destruct pressed; [done|].
  unfold Form.addCreditOnly_onPress, addCreditOnly_onPress.
  by destruct (select_by_date date t).
Qed.


Lemma insert_fresh_date now date p b s price ca cn t :
  select_by_date date t = None →
  insert now date p b s price ca cn t
  = Ok ({| rows := rows t ++ [new_row now t date p b s price ca cn];
           sqlite_sequence := next_rowid t |}, {| changes := 1 |}).
Proof.
  intros Hsel%select_by_date_None. unfold insert.
  rewrite decide_False; [done|].
  intros (r & Hr & Hdate)%Exists_exists. apply Hsel.
  rewrite <- Hdate. by apply list_elem_of_fmap_2.
Qed.

Lemma update_credit_other_dates ca cn date (l : list Row.t) :
  filter (λ x, ¬ has Row.date date x)
    ((λ r, if decide (has Row.date date r)
           then Row.set_credit ca cn r else r) <$> l)
  = filter (λ x, ¬ has Row.date date x) l.
Proof.
  induction l as [|x l IH]; [done|]. rewrite fmap_cons.
  destruct (decide (has Row.date date x)) as [Hx|Hx].
  - rewrite !filter_cons_False by (intros Hn; by apply Hn). apply IH.
  - rewrite !filter_cons_True by done. by rewrite IH.
Qed.

(** The OK handler always ends well, and writes the date only. *)
Lemma addCreditOnly_onPress_succeeds now date amount creditName t :
  (addCreditOnly_onPress now date amount creditName t).2 = Some AlertSuccess
  ∧ filter (λ x, ¬ has Row.date date x)
      (rows (addCreditOnly_onPress now date amount creditName t).1)
    = filter (λ x, ¬ has Row.date date x) (rows t).
Proof.
  unfold addCreditOnly_onPress.
  destruct (select_by_date date t) as [r|] eqn:Hsel.
  - apply select_by_date_Some in Hsel as [Hr Hd].
    unfold update_credit. cbn [changes].
    assert (r ∈ filter (has Row.date date) (rows t)) as Hin.
    { apply list_elem_of_filter. by split. }
    destruct (filter (has Row.date date) (rows t)) as [|y l] eqn:Hf.
    { by apply elem_of_nil in Hin. }
    cbn [length Nat.ltb Nat.leb fst snd rows].
    split; [done|apply update_credit_other_dates].
  - rewrite insert_fresh_date by done. cbn [changes Nat.ltb Nat.leb fst snd rows].
    split; [done|].
    rewrite filter_app, filter_cons_False; [by rewrite app_nil_r|].
    intros Hn. by apply Hn.
Qed.

Lemma Form_insert_fresh_date now date amount creditName t :
  select_by_date date t = None →
  Form.insert now date amount creditName t
  = Ok ({| rows := rows t
             ++ [Form.new_row now t date (Some 0) 0 0 (Some 0%Qc) amount
                   creditName];
           sqlite_sequence := next_rowid t |}, {| changes := 1 |}).
Proof.
  intros Hsel%select_by_date_None. unfold Form.insert.
  rewrite decide_False; [done|].
  intros (r & Hr & Hdate)%Exists_exists. apply Hsel.
  rewrite <- Hdate. by apply list_elem_of_fmap_2.
Qed.

Lemma Form_update_credit_other_dates ca cn date (l : list Row.t) :
  filter (λ x, ¬ has Row.date date x)
    ((λ r, if decide (has Row.date date r)
           then Form.set_credit ca cn r else r) <$> l)
  = filter (λ x, ¬ has Row.date date x) l.
Proof.
  induction l as [|x l IH]; [done|]. rewrite fmap_cons.
  destruct (decide (has Row.date date x)) as [Hx|Hx].
  - rewrite !filter_cons_False by (intros Hn; by apply Hn). apply IH.
  - rewrite !filter_cons_True by done. by rewrite IH.
Qed.

(** The OK handler always ends well and writes the date only; the date has
    a record afterwards, and an amount that is not a number leaves NULL as
    the credit amount of the date. *)
Lemma Form_addCreditOnly_onPress_succeeds now date amount creditName t :
  let added := Form.addCreditOnly_onPress now date amount creditName t in
  added.2 = Some AlertSuccess
  ∧ filter (λ x, ¬ has Row.date date x) (rows added.1)
    = filter (λ x, ¬ has Row.date date x) (rows t)
  ∧ (∃ r, r ∈ rows added.1 ∧ Row.date r = date)
  ∧ (amount = None →
     ∀ r, r ∈ rows added.1 → Row.date r = date → Row.credit_amount r = None).
Proof.
  intros added. subst added. unfold Form.addCreditOnly_onPress.
  destruct (select_by_date date t) as [r|] eqn:Hsel.
  - apply select_by_date_Some in Hsel as [Hr Hd].
    unfold Form.update_credit. cbn [changes].
    assert (r ∈ filter (has Row.date date) (rows t)) as Hin.
    { apply list_elem_of_filter. by split. }
    destruct (filter (has Row.date date) (rows t)) as [|y l] eqn:Hf.
    { by apply elem_of_nil in Hin. }
    cbn [length Nat.ltb Nat.leb fst snd rows].
    split_and!; [done|apply Form_update_credit_other_dates| |].
    + eexists. split.
      * apply list_elem_of_fmap. exists r. split; [done|exact Hr].
      * rewrite decide_True by done. done.
    + intros -> r' (x & -> & Hx)%list_elem_of_fmap Hdate.
      destruct (decide (has Row.date date x)) as [Hx'|Hx']; [done|].
      by destruct Hx'.
  - rewrite Form_insert_fresh_date by done.
    cbn [changes Nat.ltb Nat.leb fst snd rows].
    split_and!; [done| | |].
    + rewrite filter_app, filter_cons_False; [by rewrite app_nil_r|].
      intros Hn. by apply Hn.
    + eexists. split; [apply elem_of_app; right; apply list_elem_of_here|done].
    + intros -> r' [Hin| ->%list_elem_of_singleton]%elem_of_app Hdate;
        [|done].
      apply select_by_date_None in Hsel. exfalso. apply Hsel.
      rewrite <- Hdate. by apply list_elem_of_fmap_2.
Qed.

(** X2. On a form whose amount is blank, a text that is not a number, or a
    finite number: [addCreditOnly] rejects the form, with the error alert
    and the table as it was, exactly when the amount is blank or a number
    that is not positive, or the name is empty, whichever button is pressed
    afterwards; an amount that is not a number passes the guard.  A form it accepts
    changes nothing on Cancel; on OK it always ends with the success alert
    (the INSERT never meets a record of the date), the records of the other
    dates stay as they were, and when the amount is not a number the date
    has a record whose credit amount is NULL: the credit the date had is
    lost. *)
Theorem addCreditOnly_accepts now pressed date creditAmount creditName t :
  let rejected :=
    creditAmount = Blank
    ∨ (∃ amount, creditAmount = Entered amount ∧ (amount ≤ 0)%Qc)
    ∨ creditName = EmptyString in
  (rejected ↔
     Form.addCreditOnly now pressed date creditAmount creditName t
     = (t, Some AlertError))
  ∧ (¬ rejected →
     Form.addCreditOnly now Cancel date creditAmount creditName t = (t, None)
     ∧ let added :=
         Form.addCreditOnly now Confirm date creditAmount creditName t in
       added.2 = Some AlertSuccess
       ∧ filter (λ x, ¬ has Row.date date x) (rows added.1)
         = filter (λ x, ¬ has Row.date date x) (rows t)
       ∧ (creditAmount = NotANumber →
          (∃ r, r ∈ rows added.1 ∧ Row.date r = date)
          ∧ ∀ r, r ∈ rows added.1 → Row.date r = date →
              Row.credit_amount r = None)).
Proof.
  intros rejected. subst rejected. unfold Form.addCreditOnly.
  destruct creditAmount as [| |amount]; cbn [Form.blank Form.parseFloat orb].
  - split; [split; [done|auto]|tauto].
  - destruct (decide (creditName = EmptyString)) as [->|Hname].
    { cbn [truthy string_truthy negb]. split; [split; [done|auto]|tauto]. }
    apply truthy_string in Hname as Htruthy. rewrite Htruthy. cbn [negb].
    destruct (Form_addCreditOnly_onPress_succeeds now date None creditName t)
      as (Hok & Hother & Hdate & Hnull).
    split.
    + split; [intros [?|[(? & ? & ?)|?]]; done|].
      destruct pressed; [done|]. intros E. rewrite E in Hok. done.
    + intros _. split; [done|]. cbn zeta. split_and!; [done..|].
      intros _. split; [done|by apply Hnull].
  - destruct (decide (amount ≤ 0)%Qc) as [Hle|Hpos].
    { rewrite bool_decide_eq_true_2 by done. cbn [orb].
      split; [split; [done|]|]; [by eauto|].
      intros Hn. exfalso. apply Hn. by eauto. }
    rewrite bool_decide_eq_false_2 by done. cbn [orb].
    destruct (decide (creditName = EmptyString)) as [->|Hname].
    { cbn [truthy string_truthy negb]. split; [split; [done|auto]|tauto]. }
    apply truthy_string in Hname as Htruthy. rewrite Htruthy. cbn [negb].
    destruct (Form_addCreditOnly_onPress_succeeds now date (Some amount)
                creditName t) as (Hok & Hother & _).
    split.
    + split; [intros [?|[(a & [= <-] & Ha)|?]]; done|].
      destruct pressed; [done|]. intros E. rewrite E in Hok. done.
    + intros _. split; [done|]. cbn zeta. split_and!; [done..|]. done.
Qed.

(** ** What the tables the application reaches have in common *)

Lemma saveDailyRecord_cases now date producedEggs breakages soldEggs
    pricePerEgg creditAmount creditName t :
  saveDailyRecord now date producedEggs breakages soldEggs pricePerEgg
    creditAmount creditName t = (t, Some AlertError)
  ∨ ∃ produced priceValue,
      js_or soldEggs 0 ≤ produced - js_or breakages 0
      ∧ saveDailyRecord now date producedEggs breakages soldEggs pricePerEgg
          creditAmount creditName t
        = ({| rows := filter (λ x, ¬ has Row.date date x) (rows t)
                ++ [new_row now t date produced (js_or breakages 0)
                      (js_or soldEggs 0) priceValue (js_or creditAmount 0%Qc)
                      creditName];
              sqlite_sequence := next_rowid t |}, Some AlertSuccess).
Proof.
  destruct producedEggs as [produced|]; [|by left].
  destruct pricePerEgg as [priceValue|]; [|by left].
  destruct (decide (js_or soldEggs 0 ≤ produced - js_or breakages 0))
    as [Hle|Hgt].
  - right. exists produced, priceValue. split; [done|].
    by apply saveDailyRecord_writes.
  - left. unfold saveDailyRecord.
    destruct (Z.gtb_spec (js_or soldEggs 0) (produced - js_or breakages 0));
      [done|lia].
Qed.

Lemma addCreditOnly_cases now pressed date creditAmount creditName t :
  (addCreditOnly now pressed date creditAmount creditName t).1 = t
  ∨ ∃ amount,
      addCreditOnly now pressed date creditAmount creditName t
      = addCreditOnly_onPress now date amount creditName t.
Proof.
  unfold addCreditOnly. destruct creditAmount as [amount|]; [|by left].
  case_decide; [by left|]. destruct (truthy creditName); [|by left].
  destruct pressed; [by left|]. right. by exists amount.
Qed.

(** One action either keeps the sequence, and then every row continues a
    row that was there, or moves the sequence to the next rowid, and then
    every row was there or is new, filled, and carries that rowid. *)
Lemma perform_origin (a : action) (t : table) :
  (sqlite_sequence (perform a t) = sqlite_sequence t
   ∧ ∀ r', r' ∈ rows (perform a t) → ∃ r, r ∈ rows t ∧ continues r r')
  ∨ (sqlite_sequence (perform a t) = next_rowid t
     ∧ ∀ r', r' ∈ rows (perform a t) →
         r' ∈ rows t ∨ (Row.id r' = next_rowid t ∧ filled r')).
Proof.
  assert (∀ t0 : table,
            sqlite_sequence t0 = sqlite_sequence t ∧ rows t0 = rows t →
            sqlite_sequence t0 = sqlite_sequence t
            ∧ ∀ r', r' ∈ rows t0 → ∃ r, r ∈ rows t ∧ continues r r') as Hsame.
  { intros t0 [-> ->]. split; [done|]. intros r' Hr'. exists r'.
    split; [done|by left]. }
  destruct a as [now date producedEggs breakages soldEggs pricePerEgg
                   creditAmount creditName
                |now pressed date creditAmount creditName
                |pressed id]; cbn [perform].
  - destruct (saveDailyRecord_cases now date producedEggs breakages soldEggs
        pricePerEgg creditAmount creditName t)
      as [->|(produced & priceValue & Hle & ->)]; [left; by apply Hsame|].
    right. cbn [fst rows sqlite_sequence]. split; [done|].
    intros r' [[_ Hin]%list_elem_of_filter| ->%list_elem_of_singleton]%elem_of_app;
      [by left|].
    right. split; [done|]. by eexists _, _, _, _, _, _.
  - destruct (addCreditOnly_cases now pressed date creditAmount creditName t)
      as [->|[amount ->]]; [left; by apply Hsame|].
    unfold addCreditOnly_onPress.
    destruct (select_by_date date t) as [r|] eqn:Hsel.
    + left. unfold update_credit.
      destruct (0 <? _)%nat; cbn [fst rows sqlite_sequence];
        (split; [done|]); intros r' (x & -> & Hx)%list_elem_of_fmap;
        exists x; (split; [done|]);
        (case_decide; [right; by eexists _, _|by left]).
    + right. rewrite insert_fresh_date by done.
      cbn [changes Nat.ltb Nat.leb fst rows sqlite_sequence]. split; [done|].
      intros r' [Hin| ->%list_elem_of_singleton]%elem_of_app; [by left|].
      right. split; [done|]. by eexists _, _, _, _, _, _.
  - left. unfold deleteRecord. destruct pressed; [by apply Hsame|].
    cbn [delete_by_id fst rows sqlite_sequence]. split; [done|].
    intros r' [_ Hin]%list_elem_of_filter. exists r'. split; [done|by left].
Qed.

Lemma continues_identity (r r' : Row.t) :
  continues r r' →
  Row.id r' = Row.id r ∧ Row.date r' = Row.date r
  ∧ Row.created_at r' = Row.created_at r.
Proof. by intros [->|(ca & cn & ->)]. Qed.

(** X3. In every table the application reaches, a date has one record at
    most and an id has one record at most: two records of the table that
    have the same date, or the same id, are the same record. *)
Theorem reachable_one_record_per_date (t : table) :
  reachable t →
  ∀ r1 r2, r1 ∈ rows t → r2 ∈ rows t →
    Row.date r1 = Row.date r2 ∨ Row.id r1 = Row.id r2 → r1 = r2.
Proof.
  intros [Hdates Hids]%reachable_unique r1 r2 H1 H2 [Heq|Heq].
  - by apply (unique_key_inj Row.date (rows t)).
  - by apply (unique_key_inj Row.id (rows t)).
Qed.

Lemma comes_from_same (l : list Row.t) (r : Row.t) : r ∈ l → comes_from l r.
Proof. intros Hr. exists r. by split; [|left]. Qed.

(** The rows after an action with any text in the fields: each comes from
    a row that was there, or is a new row, which has its counts. *)
Lemma Form_perform_counts (a : Form.action) (t : table) (r' : Row.t) :
  r' ∈ rows (Form.perform a t) → comes_from (rows t) r' ∨ has_counts r'.
Proof.
  destruct a as [now date producedEggs breakages soldEggs pricePerEgg
                   creditAmount creditName
                |now pressed date creditAmount creditName
                |pressed id]; cbn [Form.perform].
  - unfold Form.saveDailyRecord.
    destruct (_ || _); [left; by apply comes_from_same|].
    destruct (match _ with Some _ => _ | None => false end);
      [left; by apply comes_from_same|].
    cbn [Form.insert_or_replace changes Nat.ltb Nat.leb fst rows].
    intros [[_ Hin]%list_elem_of_filter| ->%list_elem_of_singleton]%elem_of_app;
      [left; by apply comes_from_same|right].
    by eexists _, _, _.
  - unfold Form.addCreditOnly.
    destruct (_ || _); [left; by apply comes_from_same|].
    destruct pressed; [left; by apply comes_from_same|].
    unfold Form.addCreditOnly_onPress.
    destruct (select_by_date date t) as [r|] eqn:Hsel.
    + unfold Form.update_credit.
      destruct (0 <? _)%nat; cbn [fst rows];
        intros (x & -> & Hx)%list_elem_of_fmap; left; exists x;
        (split; [done|]); (case_decide; [right; by eexists _, _|by left]).
    + rewrite Form_insert_fresh_date by done.
      cbn [changes Nat.ltb Nat.leb fst rows].
      intros [Hin| ->%list_elem_of_singleton]%elem_of_app;
        [left; by apply comes_from_same|right].
      by eexists _, _, _.
  - unfold deleteRecord. destruct pressed; [left; by apply comes_from_same|].
    cbn [delete_by_id fst rows].
    intros [_ Hin]%list_elem_of_filter. left. by apply comes_from_same.
Qed.

(** With exact counts, a new row is within its stock. *)
Lemma Form_perform_stock (a : Form.action) (t : table) (r' : Row.t) :
  exact_action a →
  r' ∈ rows (Form.perform a t) → comes_from (rows t) r' ∨ in_stock r'.
Proof.
  destruct a as [now date producedEggs breakages soldEggs pricePerEgg
                   creditAmount creditName
                |now pressed date creditAmount creditName
                |pressed id]; cbn [Form.perform exact_action].
  - intros (Hp & Hb & Hs).
    destruct (Form_saveDailyRecord_cases now date producedEggs breakages
                soldEggs pricePerEgg creditAmount creditName t Hp Hb Hs)
      as [[_ ->]|[Hr ->]]; [left; by apply comes_from_same|].
    cbn [fst rows].
    intros [[_ Hin]%list_elem_of_filter| ->%list_elem_of_singleton]%elem_of_app;
      [left; by apply comes_from_same|right].
    intros produced broken sold Hproduced [= <-] [= <-].
    cbn [Form.new_row Row.produced_eggs] in Hproduced.
    destruct producedEggs as [| |n]; [done..|]. injection Hproduced as <-.
    destruct (decide (entered_or 0 soldEggs ≤ n - entered_or 0 breakages));
      [done|].
    exfalso. apply Hr. right. right. exists n. split; [done|lia].
  - intros _. unfold Form.addCreditOnly.
    destruct (_ || _); [left; by apply comes_from_same|].
    destruct pressed; [left; by apply comes_from_same|].
    unfold Form.addCreditOnly_onPress.
    destruct (select_by_date date t) as [r|] eqn:Hsel.
    + unfold Form.update_credit.
      destruct (0 <? _)%nat; cbn [fst rows];
        intros (x & -> & Hx)%list_elem_of_fmap; left; exists x;
        (split; [done|]); (case_decide; [right; by eexists _, _|by left]).
    + rewrite Form_insert_fresh_date by done.
      cbn [changes Nat.ltb Nat.leb fst rows].
      intros [Hin| ->%list_elem_of_singleton]%elem_of_app;
        [left; by apply comes_from_same|right].
      by intros produced broken sold [= <-] [= <-] [= <-].
  - intros _. unfold deleteRecord.
    destruct pressed; [left; by apply comes_from_same|].
    cbn [delete_by_id fst rows].
    intros [_ Hin]%list_elem_of_filter. left. by apply comes_from_same.
Qed.

(** X4. Whatever texts the fields hold, no table the callbacks reach from
    the empty table has a NULL in the breakages, the sold eggs or the
    credit name of a record
    (the produced eggs, the price and the credit amount can be NULL: they
    are when the text entered is not a number).  When moreover every count
    saved has magnitude 2^52 at most, the sold eggs of a record whose
    produced eggs are not NULL do not exceed its produced eggs less its
    breakages: the remaining eggs are then never negative. *)
Theorem reachable_rows (t : table) :
  (Form.reachable (λ _, True) t → ∀ r, r ∈ rows t → has_counts r)
  ∧ (Form.reachable exact_action t → ∀ r, r ∈ rows t → in_stock r).
Proof.
  split.
  - induction 1 as [|a t _ _ IH]; intros r' Hr'.
    { by apply elem_of_nil in Hr'. }
    destruct (Form_perform_counts a t r' Hr')
      as [(r & Hr & [->|(ca & cn & ->)])|?]; [by apply IH| |done].
    destruct (IH r Hr) as (broken & sold & name & Hb & Hs & _).
    by exists broken, sold, cn.
  - induction 1 as [|a t Ha _ IH]; intros r' Hr'.
    { by apply elem_of_nil in Hr'. }
    destruct (Form_perform_stock a t r' Ha Hr')
      as [(r & Hr & [->|(ca & cn & ->)])|?]; [by apply IH| |done].
    intros produced broken sold Hp Hb Hs. by apply (IH r Hr).
Qed.

Lemma max_rowid_le (l : list Row.t) (bound : Z) :
  0 ≤ bound → (∀ r, r ∈ l → Row.id r ≤ bound) → max_rowid l ≤ bound.
Proof.
  intros Hb Hl. induction l as [|x l IH]; [done|].
  cbn [max_rowid foldr]. fold (max_rowid l).
  pose proof (Hl x (list_elem_of_here _ _)).
  assert (max_rowid l ≤ bound); [|lia].
  apply IH. intros r Hr. apply Hl. by apply list_elem_of_further.
Qed.

(** The ids in a reachable table are between 1 and the sequence. *)
Lemma reachable_ids_bounded (t : table) :
  reachable t →
  0 ≤ sqlite_sequence t ∧ ∀ r, r ∈ rows t → 1 ≤ Row.id r ≤ sqlite_sequence t.
Proof.
  induction 1 as [|a t _ [Hseq IH]].
  - split; [done|]. by intros r ?%elem_of_nil.
  - assert (next_rowid t = sqlite_sequence t + 1) as Hnext.
    { unfold next_rowid.
      assert (max_rowid (rows t) ≤ sqlite_sequence t); [|lia].
      apply max_rowid_le; [done|]. intros r Hr. by apply IH. }
    destruct (perform_origin a t) as [[-> Hrows]|[-> Hrows]].
    + split; [done|]. intros r' Hr'.
      destruct (Hrows r' Hr') as (r & Hr & [-> _]%continues_identity).
      by apply IH.
    + split; [lia|]. intros r' Hr'.
      destruct (Hrows r' Hr') as [Hr|[-> _]]; [|lia].
      specialize (IH r' Hr). lia.
Qed.

(** X5. Ids are never reused.  In a table the application reaches every id
    is between 1 and the sequence the table keeps; an action never lowers
    the sequence, and each record after the action either continues a
    record that was there (same id, date and creation time) or has an id
    above the sequence, that is, above every id given so far, deleted
    records included. *)
Theorem reachable_ids_never_reused (t : table) (a : action) :
  reachable t →
  (∀ r, r ∈ rows t → 1 ≤ Row.id r ≤ sqlite_sequence t)
  ∧ sqlite_sequence t ≤ sqlite_sequence (perform a t)
  ∧ ∀ r', r' ∈ rows (perform a t) →
      (∃ r, r ∈ rows t ∧ Row.id r = Row.id r' ∧ Row.date r = Row.date r'
            ∧ Row.created_at r = Row.created_at r')
      ∨ sqlite_sequence t < Row.id r'.
Proof.
  intros [Hseq Hids]%reachable_ids_bounded.
  assert (next_rowid t = sqlite_sequence t + 1) as Hnext.
  { unfold next_rowid.
    assert (max_rowid (rows t) ≤ sqlite_sequence t); [|lia].
    apply max_rowid_le; [done|]. intros r Hr. by apply Hids. }
  split; [done|].
  destruct (perform_origin a t) as [[-> Hrows]|[-> Hrows]].
  - split; [done|]. intros r' Hr'.
    destruct (Hrows r' Hr') as (r & Hr & (? & ? & ?)%continues_identity).
    left. by exists r.
  - split; [lia|]. intros r' Hr'.
    destruct (Hrows r' Hr') as [Hr|[-> _]]; [|right; lia].
    left. by exists r'.
Qed.

(** ** Saving, then deleting *)

(** X6. Saving a date that has no record and then deleting the record by
    the id it got gives back the records as they were; only the sequence
    has moved, to that id, which is above every id of the table. *)
Theorem saveDailyRecord_then_deleteRecord now date produced breakages
    soldEggs priceValue creditAmount creditName t :
  date ∉ Row.date <$> rows t →
  js_or soldEggs 0 ≤ produced - js_or breakages 0 →
  let t1 := (saveDailyRecord now date (Some produced) breakages soldEggs
               (Some priceValue) creditAmount creditName t).1 in
  ∃ r, filter (has Row.date date) (rows t1) = [r]
    ∧ (∀ x, x ∈ rows t → Row.id x < Row.id r)
    ∧ deleteRecord Confirm (Row.id r) t1
      = ({| rows := rows t; sqlite_sequence := Row.id r |}, Some AlertSuccess).
Proof.
  intros Hdate Hle t1. subst t1. rewrite saveDailyRecord_writes by done.
  cbn [fst rows]. rewrite filter_not_has_absent by done.
  eexists. split_and!.
  - rewrite filter_app, filter_has_absent by done. by rewrite filter_cons_True.
  - intros x Hx. by apply next_rowid_fresh.
  - unfold deleteRecord, delete_by_id. cbn [rows sqlite_sequence new_row Row.id].
    rewrite filter_app, filter_not_has_absent, filter_cons_False.
    + by rewrite app_nil_r.
    + intros Hn. by apply Hn.
    + intros (x & Hid & Hx)%list_elem_of_fmap.
      apply next_rowid_fresh in Hx. lia.
Qed.

(** ** The summary after a write *)

Section SumApp.
Context {A : Type} (zero : A) (add : A → A → A).
Context `{!Assoc (=) add, !LeftId (=) zero add}.

Lemma sum_over_app (f : Row.t → A) (l1 l2 : list Row.t) :
  sum_over zero add f (l1 ++ l2)
  = add (sum_over zero add f l1) (sum_over zero add f l2).
Proof.
  induction l1 as [|x l1 IH]; cbn [app].
  - by rewrite (left_id zero add).
  - change (sum_over zero add f (x :: l1 ++ l2))
      with (add (f x) (sum_over zero add f (l1 ++ l2))).
    change (sum_over zero add f (x :: l1))
      with (add (f x) (sum_over zero add f l1)).
    by rewrite IH, (assoc add).
Qed.
End SumApp.

Lemma sum_over_cons {A} (zero : A) (add : A → A → A) (f : Row.t → A) x l :
  sum_over zero add f (x :: l) = add (f x) (sum_over zero add f l).
Proof. done. Qed.

Lemma sum_over_ext {A} (zero : A) (add : A → A → A) (f g : Row.t → A) l :
  (∀ r, r ∈ l → f r = g r) → sum_over zero add f l = sum_over zero add g l.
Proof.
  induction l as [|x l IH]; intros Hfg; [done|].
  rewrite !sum_over_cons, IH, (Hfg x); [done|apply list_elem_of_here|].
  intros r Hr. by apply Hfg, list_elem_of_further.
Qed.

#[local] Instance Zadd_assoc' : Assoc (=) Z.add.
Proof. intros x y z. lia. Qed.
#[local] Instance Zadd_left_id' : LeftId (=) 0 Z.add.
Proof. intros x. lia. Qed.
#[local] Instance Zadd_right_id' : RightId (=) 0 Z.add.
Proof. intros x. lia. Qed.

Lemma calculateSummary_over (t : table) :
  calculateSummary t =
    {| totalProduced :=
         sum_over 0 Z.add (default 0 ∘ Row.produced_eggs) (rows t);
       totalBreakages := sum_over 0 Z.add (default 0 ∘ Row.breakages) (rows t);
       totalSold := sum_over 0 Z.add (default 0 ∘ Row.sold_eggs) (rows t);
       totalCashSales := sum_over 0%Qc Qcplus cash_of (rows t);
       totalCredits :=
         sum_over 0%Qc Qcplus (default 0%Qc ∘ Row.credit_amount) (rows t) |}.
Proof.
  unfold calculateSummary.
  rewrite !(COALESCE_SUM_column 0 Z.add), !(COALESCE_SUM_column 0%Qc Qcplus).
  f_equal. apply sum_over_ext. intros r _.
  unfold sold_times_price, cash_of, compose.
  destruct (Row.sold_eggs r), (Row.price_per_egg r); simpl; [done|..].
  - by rewrite Qcmult_0_r.
  - by rewrite Qcmult_0_l.
  - by rewrite Qcmult_0_l.
Qed.

(** The summary of a table with one more row, wherever the row stands. *)
Lemma calculateSummary_with (r : Row.t) (before after : list Row.t) seq seq' :
  calculateSummary {| rows := before ++ r :: after; sqlite_sequence := seq |}
  = summary_with
      (calculateSummary
         {| rows := before ++ after; sqlite_sequence := seq' |}) r.
Proof.
  rewrite !calculateSummary_over. unfold summary_with.
  cbn [rows totalProduced totalBreakages totalSold totalCashSales totalCredits].
  rewrite !(sum_over_app 0 Z.add), !(sum_over_app 0%Qc Qcplus), !sum_over_cons.
  f_equal; unfold compose; try lia; ring.
Qed.

(** X7. Saving a date that has no record adds the saved values to the
    summary: the produced eggs, the breakages and the sold eggs to their
    totals, sold eggs times price to the cash sales, the credit amount to
    the credits (a blank counting as 0). *)
Theorem saveDailyRecord_summary now date produced breakages soldEggs
    priceValue creditAmount creditName t :
  date ∉ Row.date <$> rows t →
  js_or soldEggs 0 ≤ produced - js_or breakages 0 →
  let before := calculateSummary t in
  calculateSummary
    (saveDailyRecord now date (Some produced) breakages soldEggs
       (Some priceValue) creditAmount creditName t).1
  = {| totalProduced := totalProduced before + produced;
       totalBreakages := totalBreakages before + js_or breakages 0;
       totalSold := totalSold before + js_or soldEggs 0;
       totalCashSales :=
         (totalCashSales before
          + Number_of_Z (js_or soldEggs 0%Z) * priceValue)%Qc;
       totalCredits := (totalCredits before + js_or creditAmount 0)%Qc |}.
Proof.
  intros Hdate Hle before. subst before.
  rewrite saveDailyRecord_writes by done. cbn [fst].
  rewrite filter_not_has_absent by done.
  rewrite (calculateSummary_with _ (rows t) [] _ (sqlite_sequence t)).
  rewrite app_nil_r. by destruct t.
Qed.

(** X8. Deleting a record takes its counts and amounts, and nothing else,
    out of the summary: the summary before is the summary after with the
    values of the deleted record added. *)
Theorem deleteRecord_summary (t : table) (r : Row.t) :
  unique_ids t → r ∈ rows t →
  calculateSummary t
  = summary_with (calculateSummary (deleteRecord Confirm (Row.id r) t).1) r.
Proof.
  intros Hu Hr.
  destruct (unique_key_split Row.id r (rows t) Hu Hr)
    as (before & after & Hrows & Hb & Ha).
  unfold deleteRecord, delete_by_id. cbn [fst].
  rewrite Hrows, filter_not_has_unique by done.
  rewrite <- (calculateSummary_with r before after (sqlite_sequence t)).
  rewrite <- Hrows. by destruct t.
Qed.

(** X9. Numbers taken as exact, a confirmed [addCreditOnly] with a
    positive amount and a name that is not empty adds the amount to the
    total of the credits and leaves the four other totals as they were,
    whether the date had a record or not. *)
Theorem addCreditOnly_summary now date amount creditName t :
  unique_dates t → (0 < amount)%Qc → creditName ≠ EmptyString →
  let before := calculateSummary t in
  calculateSummary
    (addCreditOnly now Confirm date (Some amount) creditName t).1
  = {| totalProduced := totalProduced before;
       totalBreakages := totalBreakages before;
       totalSold := totalSold before;
       totalCashSales := totalCashSales before;
       totalCredits := (totalCredits before + amount)%Qc |}.
Proof.
  intros Hu Hpos Hname before. subst before.
  destruct (select_by_date date t) as [r|] eqn:Hsel.
  - apply select_by_date_Some in Hsel as [Hr <-].
    destruct (unique_key_split Row.date r (rows t) Hu Hr)
      as (l1 & l2 & Hrows & H1 & H2).
    rewrite (addCreditOnly_existing now t r l1 l2) by done. cbn [fst].
    rewrite (calculateSummary_with _ l1 l2 _ 0).
    replace t with {| rows := l1 ++ r :: l2;
                      sqlite_sequence := sqlite_sequence t |}
      by (rewrite <- Hrows; by destruct t).
    rewrite (calculateSummary_with r l1 l2 _ 0).
    unfold summary_with, cash_of. cbn. rewrite js_or_default_Qc.
    f_equal. ring.
  - apply select_by_date_None in Hsel.
    rewrite addCreditOnly_absent by done. cbn [fst].
    rewrite (calculateSummary_with _ (rows t) [] _ (sqlite_sequence t)).
    rewrite app_nil_r.
    replace {| rows := rows t; sqlite_sequence := sqlite_sequence t |}
      with t by (by destruct t).
    unfold summary_with, cash_of. cbn. f_equal; try lia; ring.
Qed.

(** ** The list of recent records *)

#[local] Instance flip_date_le_trans : Transitive (flip date_le).
Proof. intros x y z Hxy Hyz. unfold flip in *. by etrans. Qed.

Lemma recent_first_sorted (t : table) :
  StronglySorted (flip date_le) (reverse (select_order_by_date t)).
Proof.
  apply Sorted_StronglySorted; [apply _|].
  apply Sorted_reverse, Sorted_merge_sort. apply _.
Qed.

Lemma recent_first_perm (t : table) :
  reverse (select_order_by_date t) ≡ₚ rows t.
Proof. by rewrite reverse_Permutation, select_order_by_date_perm. Qed.

(** A record that is not listed is not later than a listed one. *)
Lemma loadDailyRecords_older (t : table) (x y : Row.t) :
  x ∈ rows t → x ∉ loadDailyRecords t → y ∈ loadDailyRecords t →
  String.le (Row.date x) (Row.date y).
Proof.
  unfold loadDailyRecords. intros Hx Hnot Hy.
  pose proof (recent_first_sorted t) as Hs.
  rewrite <- (take_drop 30 (reverse (select_order_by_date t))) in Hs.
  apply (StronglySorted_app_1_elem_of _ _ _ y x) in Hs; [done|done|].
  rewrite <- recent_first_perm,
    <- (take_drop 30 (reverse (select_order_by_date t))) in Hx.
  by apply elem_of_app in Hx as [?|?].
Qed.

(** X10. [loadDailyRecords] lists at most 30 records, all of the table, the
    latest date first; when the table has at most 30 records it lists them
    all; and no record it leaves out is later than one it lists. *)
Theorem loadDailyRecords_latest (t : table) :
  (length (loadDailyRecords t) ≤ 30)%nat
  ∧ (∀ r, r ∈ loadDailyRecords t → r ∈ rows t)
  ∧ StronglySorted (λ r1 r2, String.le (Row.date r2) (Row.date r1))
      (loadDailyRecords t)
  ∧ ((length (rows t) ≤ 30)%nat → loadDailyRecords t ≡ₚ rows t)
  ∧ (∀ x y, x ∈ rows t → x ∉ loadDailyRecords t → y ∈ loadDailyRecords t →
       String.le (Row.date x) (Row.date y)).
Proof.
  split_and!.
  - unfold loadDailyRecords. rewrite length_take. lia.
  - unfold loadDailyRecords. intros r Hr.
    rewrite <- recent_first_perm.
    by apply (subseteq_take 30), Hr.
  - pose proof (recent_first_sorted t) as Hs.
    rewrite <- (take_drop 30 (reverse (select_order_by_date t))) in Hs.
    by apply StronglySorted_app_1_l in Hs.
  - intros Hlen. unfold loadDailyRecords.
    rewrite take_ge; [apply recent_first_perm|].
    by rewrite length_reverse, select_order_by_date_perm.
  - apply loadDailyRecords_older.
Qed.

Lemma filter_none {A} (P : A → Prop) `{∀ x, Decision (P x)} (l : list A) :
  Forall (λ x, ¬ P x) l → filter P l = [].
Proof.
  induction 1 as [|x l Hx _ IH]; [done|]. by rewrite filter_cons_False.
Qed.

Lemma length_filter_Forall {A} (P : A → Prop) `{∀ x, Decision (P x)}
    (l : list A) :
  Forall P l → length (filter P l) = length l.
Proof.
  induction 1 as [|x l Hx _ IH]; [done|].
  rewrite filter_cons_True by done. cbn [length]. by rewrite IH.
Qed.

(** X11. With the dates unique, a record of the table is listed by
    [loadDailyRecords] exactly when fewer than 30 records have a later
    date: a record saved for an old date does not appear in the list. *)
Theorem loadDailyRecords_lists (t : table) (r : Row.t) :
  unique_dates t → r ∈ rows t →
  r ∈ loadDailyRecords t
  ↔ (length (filter (λ x, ¬ String.le (Row.date x) (Row.date r)) (rows t))
     < 30)%nat.
Proof.
  intros Hu Hr.
  set (later := λ x : Row.t, ¬ String.le (Row.date x) (Row.date r)).
  set (L := reverse (select_order_by_date t)).
  assert (length (filter later (rows t))
          = (length (filter later (take 30 L))
             + length (filter later (drop 30 L)))%nat) as ->.
  { rewrite <- length_app, <- filter_app, take_drop. subst L.
    by rewrite recent_first_perm. }
  assert (r ∈ L) as HrL by (subst L; by rewrite recent_first_perm).
  assert (¬ later r) as Hr_later.
  { intros Hn. by apply Hn. }
  split.
  - intros Hin. change (r ∈ take 30 L) in Hin.
    assert (filter later (drop 30 L) = []) as ->.
    { apply filter_none, Forall_forall. intros x Hx Hl. apply Hl.
      pose proof (recent_first_sorted t) as Hs. fold L in Hs.
      rewrite <- (take_drop 30 L) in Hs.
      by apply (StronglySorted_app_1_elem_of _ _ _ r x) in Hs. }
    pose proof (length_filter_lt later (take 30 L) r Hin Hr_later).
    rewrite length_take in *. cbn [length]. lia.
  - intros Hlt. destruct (decide (r ∈ loadDailyRecords t)) as [|Hnot]; [done|].
    exfalso.
    assert (30 < length L)%nat as Hlen.
    { destruct (decide (30 < length L)%nat) as [|Hge]; [done|].
      exfalso. apply Hnot. unfold loadDailyRecords. fold L.
      rewrite take_ge by lia. done. }
    assert (Forall later (take 30 L)) as Hall.
    { apply Forall_forall. intros y Hy Hle.
      assert (y ∈ rows t) as Hyt.
      { apply (subseteq_take 30) in Hy. subst L.
        by rewrite recent_first_perm in Hy. }
      assert (y = r) as ->; [|done].
      apply (unique_key_inj Row.date (rows t)); [done..|].
      apply (anti_symm String.le); [done|].
      by apply (loadDailyRecords_older t). }
    apply (length_filter_Forall later) in Hall.
    rewrite Hall, length_take in Hlt. lia.
Qed.

(** * Further properties of the schema manager *)

(** The table the migration leaves and its outcome, for every table. *)
Lemma checkAndMigrateSchema_migrated numeric_literal (t : Schema.table) :
  Schema.checkAndMigrateSchema numeric_literal t
  = (migrated numeric_literal t,
     if Schema.includes (Schema.columns t) "credits"
        && negb (Schema.includes (Schema.columns t) "credit_amount")
     then Err (DuplicateColumnName "credit_amount") else Ok ()).
Proof.
  rewrite checkAndMigrateSchema_run.
  unfold Schema.migrations, migrated, add_if_missing.
  destruct (decide ("sold_eggs" ∈ Schema.columns t)) as [Hs|Hs],
    (decide ("credit_amount" ∈ Schema.columns t)) as [Ha|Ha],
    (decide ("credit_name" ∈ Schema.columns t)) as [Hn|Hn],
    (decide ("credits" ∈ Schema.columns t)) as [Hc|Hc];
    rewrite ?(includes_true _ "sold_eggs"), ?(includes_false _ "sold_eggs"),
      ?(includes_true _ "credit_amount"), ?(includes_false _ "credit_amount"),
      ?(includes_true _ "credit_name"), ?(includes_false _ "credit_name"),
      ?(includes_true _ "credits"), ?(includes_false _ "credits")
      by done;
    cbn [negb andb app];
    repeat first
      [ erewrite run_cons_Ok by (apply exec_AddColumn_fresh; column_names)
      | erewrite run_cons_Err
          by (apply exec_AddColumn_duplicate; column_names)
      | erewrite run_cons_Ok by (apply exec_Backfill; column_names) ];
    cbn [Schema.run Schema.Promise_all fst snd Schema.columns Schema.rows];
    try done; by destruct t.
Qed.

Lemma backfill_row_other numeric_literal (r : gmap string Schema.value) c :
  c ≠ "credit_amount" → Schema.backfill_row numeric_literal r !! c = r !! c.
Proof.
  intros Hc. unfold Schema.backfill_row.
  destruct (_ && _); [|done]. by rewrite lookup_insert_ne.
Qed.

Lemma add_if_missing_keeps columnNames name default (t : Schema.table) :
  Schema.columns (add_if_missing columnNames name default t)
  = Schema.columns t
    ++ (if Schema.includes columnNames name then [] else [name])
  ∧ ∀ i, ∃ f : gmap string Schema.value → gmap string Schema.value,
      Schema.rows (add_if_missing columnNames name default t) !! i
      = f <$> Schema.rows t !! i
      ∧ ∀ r c, c ≠ name → f r !! c = r !! c.
Proof.
  unfold add_if_missing. destruct (Schema.includes columnNames name).
  - split; [by rewrite app_nil_r|]. intros i. exists (λ r, r).
    split; [by destruct (_ !! i)|done].
  - split; [done|]. intros i. exists (λ r, <[name := default]> r).
    cbn [Schema.rows]. split; [by rewrite list_lookup_fmap|].
    intros r c Hc. by rewrite lookup_insert_ne.
Qed.

(** The columns after the migration: those found, then the missing ones
    among the three. *)
Lemma migrated_columns numeric_literal (t : Schema.table) :
  Schema.columns (migrated numeric_literal t)
  = Schema.columns t
    ++ filter (λ c, c ∉ Schema.columns t)
         ["sold_eggs"; "credit_amount"; "credit_name"].
Proof.
  set (t1 := add_if_missing (Schema.columns t) "sold_eggs"
               (Schema.INTEGER 0) t).
  set (t2 := add_if_missing (Schema.columns t) "credit_amount"
               (Schema.REAL 0) t1).
  set (t3 := add_if_missing (Schema.columns t) "credit_name"
               (Schema.TEXT EmptyString) t2).
  destruct (add_if_missing_keeps (Schema.columns t) "sold_eggs"
              (Schema.INTEGER 0) t) as [Hc1 _].
  destruct (add_if_missing_keeps (Schema.columns t) "credit_amount"
              (Schema.REAL 0) t1) as [Hc2 _].
  destruct (add_if_missing_keeps (Schema.columns t) "credit_name"
              (Schema.TEXT EmptyString) t2) as [Hc3 _].
  fold t1 in Hc1, Hc2. fold t2 in Hc2, Hc3. fold t3 in Hc3.
  assert (Schema.columns (migrated numeric_literal t) = Schema.columns t3)
    as -> by (unfold migrated; cbv zeta;
              by destruct (Schema.includes (Schema.columns t) "credits")).
  rewrite Hc3, Hc2, Hc1, <- !app_assoc. f_equal.
  rewrite !filter_cons, filter_nil. unfold Schema.includes.
  repeat case_bool_decide; repeat case_decide; done.
Qed.



(** ** The statements in any order of execution *)





(** The columns after a run: those of the table, then, once each, the
    columns the statements add that the table lacked. *)
Lemma run_columns numeric_literal ss (t : Schema.table) :
  ∃ added,
    Schema.columns (Schema.run numeric_literal ss t).1
    = Schema.columns t ++ added
    ∧ NoDup added
    ∧ ∀ x, x ∈ added
           ↔ (x ∉ Schema.columns t) ∧ x ∈ omap statement_column ss.
Proof.
  revert t. induction ss as [|s ss IH]; intros t.
  { exists []. rewrite app_nil_r. split_and!; [done|constructor|].
    intros x. split; [by intros ?%elem_of_nil|by intros [_ ?%elem_of_nil]]. }
  destruct s as [name d|].
  - destruct (decide (name ∈ Schema.columns t)) as [Hname|Hname].
    + erewrite run_cons_Err by (by apply exec_AddColumn_duplicate).
      cbn [fst]. destruct (IH t) as (added & -> & Hnd & Hadded).
      exists added. split_and!; [done..|]. intros x. rewrite Hadded.
      change (omap statement_column (Schema.AddColumn name d :: ss))
        with (name :: omap statement_column ss).
      rewrite elem_of_cons.
      split; [intros [? ?]; by auto|]. intros [Hx [->|?]]; done.
    + erewrite run_cons_Ok by (by apply exec_AddColumn_fresh).
      cbn [fst].
      destruct (IH {| Schema.columns := Schema.columns t ++ [name];
                      Schema.rows := (λ r, <[name := d]> r)
                                       <$> Schema.rows t |})
        as (added & -> & Hnd & Hadded).
      cbn [Schema.columns] in *. exists (name :: added).
      rewrite <- app_assoc. split_and!; [done| |].
      * constructor; [|done]. rewrite Hadded, not_elem_of_app.
        intros [[_ Hn] _]. apply Hn, list_elem_of_here.
      * intros x.
        change (omap statement_column (Schema.AddColumn name d :: ss))
          with (name :: omap statement_column ss).
        rewrite !elem_of_cons, Hadded, not_elem_of_app, not_elem_of_cons,
          elem_of_nil.
        destruct (decide (x = name)) as [->|Hx]; [|tauto].
        split; [intros _; split; [done|by left]|intros _; by left].
  - assert (∃ t', (Schema.run numeric_literal
                     (Schema.BackfillCreditAmount :: ss) t).1
                  = (Schema.run numeric_literal ss t').1
                  ∧ Schema.columns t' = Schema.columns t) as (t' & -> & Hc).
    { destruct (Schema.exec numeric_literal Schema.BackfillCreditAmount t)
        as [t'|e] eqn:Hexec.
      - exists t'. erewrite run_cons_Ok by done. split; [done|].
        cbn [Schema.exec] in Hexec. destruct (negb _); [done|].
        destruct (negb _); [done|]. by injection Hexec as <-.
      - exists t. by erewrite run_cons_Err by done. }
    destruct (IH t') as (added & -> & Hnd & Hadded). rewrite Hc in *.
    by exists added.
Qed.


(** The rows after a run of statements of the migration: the same number
    of rows, each with its values outside the three columns. *)
Lemma run_rows numeric_literal ss (t : Schema.table) :
  (∀ name d, Schema.AddColumn name d ∈ ss →
     name ∈ ["sold_eggs"; "credit_amount"; "credit_name"]) →
  ∃ f : gmap string Schema.value → gmap string Schema.value,
    Schema.rows (Schema.run numeric_literal ss t).1 = f <$> Schema.rows t
    ∧ ∀ r c, c ∉ ["sold_eggs"; "credit_amount"; "credit_name"] →
        f r !! c = r !! c.
Proof.
  revert t. induction ss as [|s ss IH]; intros t Hss.
  { exists (λ r, r). split; [by rewrite list_fmap_id|done]. }
  assert (∀ name d, Schema.AddColumn name d ∈ ss →
            name ∈ ["sold_eggs"; "credit_amount"; "credit_name"]) as Hss'.
  { intros name d Hin. apply (Hss name d). by apply list_elem_of_further. }
  destruct (Schema.exec numeric_literal s t) as [t'|e] eqn:Hexec.
  - erewrite run_cons_Ok by done. cbn [fst].
    destruct (IH t' Hss') as (f & -> & Hf).
    destruct s as [name d|]; cbn [Schema.exec] in Hexec.
    + destruct (Schema.includes _ _); [done|]. injection Hexec as <-.
      cbn [Schema.rows]. exists (f ∘ (λ r, <[name := d]> r)).
      split; [by rewrite list_fmap_compose|].
      intros r c Hc. cbn [compose]. rewrite Hf by done.
      apply lookup_insert_ne. intros <-. apply Hc, (Hss name d).
      apply list_elem_of_here.
    + destruct (negb _); [done|]. destruct (negb _); [done|].
      injection Hexec as <-. cbn [Schema.rows].
      exists (f ∘ Schema.backfill_row numeric_literal).
      split; [by rewrite list_fmap_compose|].
      intros r c Hc. cbn [compose]. rewrite Hf by done.
      apply backfill_row_other. intros ->. apply Hc.
      apply list_elem_of_further, list_elem_of_here.
  - erewrite run_cons_Err by done. cbn [fst]. by apply IH.
Qed.

(** The statements the migration issues on the columns it finds. *)
Lemma migrations_statements (columnNames : list string) :
  let issued := Schema.migrations columnNames in
  (∀ name d, Schema.AddColumn name d ∈ issued →
     name ∈ ["sold_eggs"; "credit_amount"; "credit_name"]
     ∧ name ∉ columnNames)
  ∧ (∀ name, name ∈ ["sold_eggs"; "credit_amount"; "credit_name"] →
       name ∉ columnNames → name ∈ omap statement_column issued)
  ∧ NoDup (filter (λ name, name ≠ "credit_amount")
             (omap statement_column issued))
  ∧ (("credits" ∈ columnNames → "credit_amount" ∈ columnNames) →
     NoDup (omap statement_column issued))
  ∧ (Schema.BackfillCreditAmount ∈ issued ↔ "credits" ∈ columnNames).
Proof.
  intros issued. subst issued. unfold Schema.migrations.
  destruct (decide ("sold_eggs" ∈ columnNames)) as [Hs|Hs],
    (decide ("credit_amount" ∈ columnNames)) as [Ha|Ha],
    (decide ("credit_name" ∈ columnNames)) as [Hn|Hn],
    (decide ("credits" ∈ columnNames)) as [Hc|Hc];
    rewrite ?(includes_true _ "sold_eggs"), ?(includes_false _ "sold_eggs"),
      ?(includes_true _ "credit_amount"), ?(includes_false _ "credit_amount"),
      ?(includes_true _ "credit_name"), ?(includes_false _ "credit_name"),
      ?(includes_true _ "credits"), ?(includes_false _ "credits") by done;
    cbn [negb app];
    (split_and!;
     [ intros name d Hin; rewrite ?elem_of_cons, ?elem_of_nil in Hin;
       rewrite !elem_of_cons;
       repeat (destruct Hin as [Hin|Hin]); try done;
       try (injection Hin as -> ->; by auto)
     | intros name Hin Hname; rewrite !elem_of_cons, elem_of_nil in Hin;
       repeat (destruct Hin as [->|Hin]); try done;
       vm_compute;
       repeat first [apply list_elem_of_here|apply list_elem_of_further]
     | vm_compute; repeat constructor;
       rewrite ?elem_of_cons, ?elem_of_nil; intuition discriminate
     | intros Himp; try (exfalso; by apply Ha, Himp);
       vm_compute; repeat constructor;
       rewrite ?elem_of_cons, ?elem_of_nil; intuition discriminate
     | rewrite ?elem_of_cons, ?elem_of_nil; split; intros H; try done;
       try tauto;
       repeat (destruct H as [H|H]); done ]).
Qed.

Lemma checkAndMigrateSchema_in_run numeric_literal executed (t : Schema.table) :
  Schema.checkAndMigrateSchema_in numeric_literal executed t
  = ((Schema.run numeric_literal executed t).1,
     Schema.Promise_all (Schema.run numeric_literal executed t).2).
Proof.
  unfold Schema.checkAndMigrateSchema_in. by destruct (Schema.run _ _ _).
Qed.



(** X13. On a table none of whose columns is a name of the migration in
    another case, in whatever order the engine executes the statements
    issued, and whether the migration fails or not: it keeps every column
    in its place and every row, appends once each the columns the table
    lacks among sold_eggs, credit_amount and credit_name (in that order
    when the statements are executed in the order of issue), and changes
    no value of a row outside these three columns. *)
Theorem checkAndMigrateSchema_keeps numeric_literal
    (t : Schema.table) (executed : list Schema.statement) :
  no_case_variant (Schema.columns t) →
  executed ≡ₚ Schema.migrations (Schema.table_info t) →
  let t' := (Schema.checkAndMigrateSchema_in numeric_literal executed t).1 in
  (∃ added,
     Schema.columns t' = Schema.columns t ++ added
     ∧ added ≡ₚ filter (λ c, c ∉ Schema.columns t)
                  ["sold_eggs"; "credit_amount"; "credit_name"])
  ∧ (executed = Schema.migrations (Schema.table_info t) →
     Schema.columns t'
     = Schema.columns t
       ++ filter (λ c, c ∉ Schema.columns t)
            ["sold_eggs"; "credit_amount"; "credit_name"])
  ∧ length (Schema.rows t') = length (Schema.rows t)
  ∧ ∀ i r r' c,
      Schema.rows t !! i = Some r → Schema.rows t' !! i = Some r' →
      c ∉ ["sold_eggs"; "credit_amount"; "credit_name"] →
      r' !! c = r !! c.
Proof.
  intros _ Hperm t'. subst t'. rewrite checkAndMigrateSchema_in_run.
  cbn [fst]. unfold Schema.table_info in Hperm.
  destruct (migrations_statements (Schema.columns t))
    as (Hadd & Hmissing & _).
  destruct (run_rows numeric_literal executed t) as (f & Hrows & Hf).
  { intros name d Hin. rewrite Hperm in Hin. by apply Hadd in Hin as [? _]. }
  split_and!.
  - destruct (run_columns numeric_literal executed t)
      as (added & Hcols & Hnd & Hadded).
    exists added. split; [done|].
    apply NoDup_Permutation; [done| |].
    { apply NoDup_filter. repeat constructor;
        rewrite ?elem_of_cons, ?elem_of_nil; intuition discriminate. }
    intros x. rewrite Hadded, list_elem_of_filter, Hperm. split.
    + intros [Hx (s & Hs & Hcol)%list_elem_of_omap].
      destruct s as [name d|]; [|done]. injection Hcol as ->.
      split; [done|]. by apply Hadd in Hs as [? _].
    + intros [Hx Hin]. split; [done|]. by apply Hmissing.
  - intros ->.
    assert ((Schema.run numeric_literal
               (Schema.migrations (Schema.table_info t)) t).1
            = (Schema.checkAndMigrateSchema numeric_literal t).1) as ->.
    { by rewrite checkAndMigrateSchema_run. }
    rewrite checkAndMigrateSchema_migrated. cbn [fst].
    apply migrated_columns.
  - by rewrite Hrows, length_fmap.
  - intros i r r' c Hr Hr' Hc. rewrite Hrows, list_lookup_fmap, Hr in Hr'.
    injection Hr' as <-. by apply Hf.
Qed.


(** X15. The table [createNewTable] creates needs no migration: whatever
    rows it holds later, the migration issues no statement and leaves it as
    it is.  So [initializeDatabase] on a new database, or after
    [resetDatabase], gives the empty table of the full schema without
    entering its fallback, and so does the next start-up. *)
Theorem createNewTable_needs_no_migration numeric_literal
    (db : Schema.database) (rows : list (gmap string Schema.value)) :
  let created := {| Schema.columns := Schema.full_schema; Schema.rows := rows |} in
  let fresh := {| Schema.columns := Schema.full_schema; Schema.rows := [] |} in
  Schema.migrations (Schema.table_info created) = []
  ∧ Schema.checkAndMigrateSchema numeric_literal created = (created, Ok ())
  ∧ Schema.initializeDatabase numeric_literal None = (Some fresh, false)
  ∧ resetDatabase Confirm db = Some fresh
  ∧ Schema.initializeDatabase numeric_literal (resetDatabase Confirm db)
    = (Some fresh, false).
Proof. by vm_compute. Qed.


(** * Properties of the component *)

Lemma saveDailyRecord_table now date producedEggs breakages soldEggs
    pricePerEgg creditAmount creditName t :
  let saved := saveDailyRecord now date producedEggs breakages soldEggs
                 pricePerEgg creditAmount creditName t in
  saved = (t, Some AlertError)
  ∨ (saved.2 = Some AlertSuccess
     ∧ saved.1 = perform (Save now date producedEggs breakages soldEggs
                            pricePerEgg creditAmount creditName) t).
Proof.
  intros saved. subst saved.
  destruct (saveDailyRecord_cases now date producedEggs breakages soldEggs
      pricePerEgg creditAmount creditName t)
    as [E|(produced & priceValue & Hle & E)]; [by left|right].
  cbn [perform]. by rewrite E.
Qed.

Lemma addCreditOnly_table now pressed date creditAmount creditName t :
  let added := addCreditOnly now pressed date creditAmount creditName t in
  (added.1 = t ∧ added.2 ≠ Some AlertSuccess)
  ∨ (added.2 = Some AlertSuccess
     ∧ added.1 = perform (AddCredit now pressed date creditAmount creditName) t).
Proof.
  intros added. subst added. cbn [perform]. unfold addCreditOnly.
  destruct creditAmount as [amount|]; [|by left].
  case_decide; [by left|]. destruct (truthy creditName); [|by left].
  destruct pressed; [by left|]. right.
  by destruct (addCreditOnly_onPress_succeeds now date amount creditName t).
Qed.

Lemma deleteRecord_table pressed id t :
  (deleteRecord pressed id t = (t, None))
  ∨ ((deleteRecord pressed id t).2 = Some AlertSuccess
     ∧ (deleteRecord pressed id t).1 = perform (Delete pressed id) t).
Proof. destruct pressed; [by left|by right]. Qed.

(** After [loadDailyRecords] the screen shows the table: the records it
    lists, and the totals whenever their SELECT returns. *)
Lemma loadDailyRecords_shows (s : Component.state) :
  let s' := Component.loadDailyRecords s in
  Component.dailyRecords s' = loadDailyRecords (Component.db s')
  ∧ ∀ totals, Int64.calculateSummary (Component.db s') = Ok totals →
      Component.summary s' = totals.
Proof.
  cbn [Component.loadDailyRecords Component.dailyRecords Component.db
       Component.summary].
  split; [done|]. intros totals E. by rewrite E.
Qed.

(** One event leaves the screen showing the table, if it did before, and
    moves the table by at most one action, or empties it. *)
Lemma handle_screen (e : Component.event) (s : Component.state) :
  Component.dailyRecords s = loadDailyRecords (Component.db s) →
  (∀ totals, Int64.calculateSummary (Component.db s) = Ok totals →
     Component.summary s = totals) →
  let s' := Component.handle e s in
  Component.dailyRecords s' = loadDailyRecords (Component.db s')
  ∧ (∀ totals, Int64.calculateSummary (Component.db s') = Ok totals →
       Component.summary s' = totals)
  ∧ (Component.db s' = Component.db s ∨ Component.db s' = empty_table
     ∨ ∃ a, Component.db s' = perform a (Component.db s)).
Proof.
  intros Hrecords Hsummary s'. subst s'.
  destruct e as [text|field|field|field|field|field|text|now|now pressed
                |pressed id| |pressed]; cbn [Component.handle];
    try (split_and!; [done|done|by left]).
  - unfold Component.saveDailyRecord.
    destruct (saveDailyRecord_table now (Component.date s)
      (Component.producedEggs s) (Component.breakages s)
      (Component.soldEggs s) (Component.pricePerEgg s)
      (Component.creditAmount s) (Component.creditName s) (Component.db s))
      as [E|[E2 E1]].
    + rewrite E. split_and!; [done|done|by left].
    + destruct (saveDailyRecord _ _ _ _ _ _ _ _ _) as [t shown].
      cbn [fst snd] in E1, E2. subst.
      split_and!; [apply loadDailyRecords_shows..|].
      right. right. by eexists.
  - unfold Component.addCreditOnly.
    destruct (addCreditOnly_table now pressed (Component.date s)
      (Component.creditAmount s) (Component.creditName s) (Component.db s))
      as [[E1 E2]|[E2 E1]];
      destruct (addCreditOnly _ _ _ _ _ _) as [t shown];
      cbn [fst snd] in E1, E2; subst.
    + destruct shown as [[]|]; try done; (split_and!; [done|done|by left]).
    + split_and!; [apply loadDailyRecords_shows..|]. right. right. by eexists.
  - unfold Component.deleteRecord.
    destruct (deleteRecord_table pressed id (Component.db s)) as [E|[E2 E1]].
    + rewrite E. split_and!; [done|done|by left].
    + destruct (deleteRecord _ _ _) as [t shown].
      cbn [fst snd] in E1, E2. subst.
      split_and!; [apply loadDailyRecords_shows..|].
      right. right. by eexists.
  - destruct pressed; cbn [Component.resetDatabase fst].
    + split_and!; [done|done|by left].
    + split_and!; [apply loadDailyRecords_shows..|]. right. by left.
Qed.


(** In every state of a session the screen shows the table, and the table
    is one the callbacks can reach. *)
Lemma running_invariant (s : Component.state) :
  Component.running s →
  Component.dailyRecords s = loadDailyRecords (Component.db s)
  ∧ (∀ totals, Int64.calculateSummary (Component.db s) = Ok totals →
       Component.summary s = totals)
  ∧ reachable (Component.db s).
Proof.
  induction 1 as [today t Ht|e s _ (Hrecords & Hsummary & Hdb)].
  - split_and!; [apply loadDailyRecords_shows..|done].
  - destruct (handle_screen e s Hrecords Hsummary) as (? & ? & Hmove).
    split_and!; [done|done|].
    destruct Hmove as [->|[->|[a ->]]];
      [done|apply reachable_empty|by apply reachable_perform].
Qed.


(** X18. A save that is rejected leaves the whole state as it was, the
    form included.  A save that succeeds keeps the date and empties the six
    other fields, so that pressing Save again at once is rejected and
    writes nothing. *)
Theorem saveDailyRecord_form now now' (s : Component.state) :
  ((Component.saveDailyRecord now s).2 = Some AlertError →
     (Component.saveDailyRecord now s).1 = s)
  ∧ ((Component.saveDailyRecord now s).2 = Some AlertSuccess →
     let s1 := (Component.saveDailyRecord now s).1 in
     Component.date s1 = Component.date s
     ∧ Component.producedEggs s1 = None ∧ Component.breakages s1 = None
     ∧ Component.soldEggs s1 = None ∧ Component.pricePerEgg s1 = None
     ∧ Component.creditAmount s1 = None
     ∧ Component.creditName s1 = EmptyString
     ∧ Component.saveDailyRecord now' s1 = (s1, Some AlertError)).
Proof.
  unfold Component.saveDailyRecord at 1 2 3 4.
  destruct (saveDailyRecord_table now (Component.date s)
    (Component.producedEggs s) (Component.breakages s)
    (Component.soldEggs s) (Component.pricePerEgg s)
    (Component.creditAmount s) (Component.creditName s) (Component.db s))
    as [E|[E2 E1]].
  - rewrite E. cbn [fst snd]. split; [by destruct s|done].
  - destruct (saveDailyRecord _ _ _ _ _ _ _ _ _) as [t shown].
    cbn [fst snd] in E1, E2. subst shown. cbn [fst snd]. split; [done|].
    intros _. by split_and!.
Qed.

(** X19. An [addCreditOnly] that is rejected or cancelled leaves the whole
    state as it was.  One that succeeds empties the amount and the name and
    keeps the other fields, so that pressing the button again at once is
    rejected: the credit is not counted twice. *)
Theorem addCreditOnly_form now now' pressed pressed' (s : Component.state) :
  ((Component.addCreditOnly now pressed s).2 ≠ Some AlertSuccess →
     (Component.addCreditOnly now pressed s).1 = s)
  ∧ ((Component.addCreditOnly now pressed s).2 = Some AlertSuccess →
     let s1 := (Component.addCreditOnly now pressed s).1 in
     Component.date s1 = Component.date s
     ∧ Component.producedEggs s1 = Component.producedEggs s
     ∧ Component.breakages s1 = Component.breakages s
     ∧ Component.soldEggs s1 = Component.soldEggs s
     ∧ Component.pricePerEgg s1 = Component.pricePerEgg s
     ∧ Component.creditAmount s1 = None
     ∧ Component.creditName s1 = EmptyString
     ∧ Component.addCreditOnly now' pressed' s1 = (s1, Some AlertError)).
Proof.
  unfold Component.addCreditOnly at 1 2 3 4.
  destruct (addCreditOnly_table now pressed (Component.date s)
    (Component.creditAmount s) (Component.creditName s) (Component.db s))
    as [[E1 E2]|[E2 E1]];
    destruct (addCreditOnly _ _ _ _ _ _) as [t shown];
    cbn [fst snd] in E1, E2; subst.
  - destruct shown as [[]|]; try done; cbn [fst snd];
      (split; [intros _; by destruct s|done]).
  - cbn [fst snd]. split; [done|]. intros _. by split_and!.
Qed.

(** X20. Deleting a record the screen lists removes that record from the
    table and from the screen, and no other: the records before it and
    after it stay, in their order. *)
Theorem deleteRecord_listed (s : Component.state) (item : Row.t) :
  Component.running s → item ∈ Component.dailyRecords s →
  let s' := (Component.deleteRecord Confirm (Row.id item) s).1 in
  ∃ before after,
    rows (Component.db s) = before ++ item :: after
    ∧ rows (Component.db s') = before ++ after
    ∧ (item ∉ rows (Component.db s'))
    ∧ (item ∉ Component.dailyRecords s')
    ∧ (Component.deleteRecord Confirm (Row.id item) s).2 = Some AlertSuccess.
Proof.
  intros (Hrecords & _ & Hreach)%running_invariant Hitem s'. subst s'.
  apply reachable_unique in Hreach as [_ Hids].
  assert (item ∈ rows (Component.db s)) as Hin.
  { rewrite Hrecords in Hitem. unfold loadDailyRecords in Hitem.
    apply (subseteq_take 30) in Hitem.
    by rewrite recent_first_perm in Hitem. }
  destruct (unique_key_split Row.id item _ Hids Hin)
    as (before & after & Hrows & Hb & Ha).
  exists before, after.
  unfold Component.deleteRecord, deleteRecord, delete_by_id.
  cbn [fst snd Component.loadDailyRecords Component.with_db Component.db
       Component.dailyRecords rows].
  rewrite Hrows, filter_not_has_unique by done.
  assert (item ∉ before ++ after) as Hgone.
  { intros [Hx|Hx]%elem_of_app; [apply Hb|apply Ha];
      by apply list_elem_of_fmap_2. }
  split_and!; [done|done|done| |done].
  intros Hx. apply Hgone. unfold loadDailyRecords in Hx.
  apply (subseteq_take 30) in Hx.
  unfold select_order_by_date in Hx. cbn [rows] in Hx.
  by rewrite reverse_Permutation, merge_sort_Permutation in Hx.
Qed.

(** X21. The keys of the list are distinct: throughout a session no two
    listed records have the same id, which [keyExtractor] reads, and no two
    have the same date. *)
Theorem keyExtractor_distinct (s : Component.state) :
  Component.running s →
  NoDup (Row.id <$> Component.dailyRecords s)
  ∧ NoDup (Row.date <$> Component.dailyRecords s).
Proof.
  intros (-> & _ & [Hdates Hids]%reachable_unique)%running_invariant.
  unfold loadDailyRecords.
  split.
  - apply (sublist_NoDup _
      (Row.id <$> reverse (select_order_by_date (Component.db s)))).
    + by rewrite recent_first_perm.
    + apply fmap_sublist, sublist_take.
  - apply (sublist_NoDup _
      (Row.date <$> reverse (select_order_by_date (Component.db s)))).
    + by rewrite recent_first_perm.
    + apply fmap_sublist, sublist_take.
Qed.

(** X22. [resetDatabase] changes nothing on Cancel.  On Reset it empties
    the list and sets the five totals to zero, and leaves the seven form
    fields as they are; the ids start again: a save made next gives its
    record the id 1, whatever ids the dropped table had given. *)
Theorem resetDatabase_restarts now pressed (s : Component.state) :
  let s' := (Component.resetDatabase pressed s).1 in
  (pressed = Cancel → s' = s)
  ∧ (pressed = Confirm →
     Component.dailyRecords s' = []
     ∧ Component.summary s'
       = {| totalProduced := 0; totalBreakages := 0; totalSold := 0;
            totalCashSales := 0%Qc; totalCredits := 0%Qc |}
     ∧ (Component.date s', Component.producedEggs s', Component.breakages s',
        Component.soldEggs s', Component.pricePerEgg s',
        Component.creditAmount s', Component.creditName s')
       = (Component.date s, Component.producedEggs s, Component.breakages s,
          Component.soldEggs s, Component.pricePerEgg s,
          Component.creditAmount s, Component.creditName s)
     ∧ ∀ r, r ∈ rows (Component.db (Component.saveDailyRecord now s').1) →
         Row.id r = 1).
Proof.
  intros s'. subst s'. split; [by intros ->|]. intros ->.
  cbn [Component.resetDatabase fst]. split_and!; [done..|].
  intros r. unfold Component.saveDailyRecord.
  cbn [Component.loadDailyRecords Component.with_db Component.db
       Component.date Component.producedEggs Component.breakages
       Component.soldEggs Component.pricePerEgg Component.creditAmount
       Component.creditName].
  destruct (saveDailyRecord_cases now (Component.date s)
    (Component.producedEggs s) (Component.breakages s)
    (Component.soldEggs s) (Component.pricePerEgg s)
    (Component.creditAmount s) (Component.creditName s) empty_table)
    as [E|(produced & priceValue & _ & E)]; rewrite E.
  - by intros ?%elem_of_nil.
  - cbn [fst Component.loadDailyRecords Component.db rows].
    by intros ->%list_elem_of_singleton.
Qed.

(** ** The further properties at work on the sample data *)

Lemma two_days_reachable : reachable two_days.
Proof.
  change (reachable (perform second_save (perform first_save empty_table))).
  apply reachable_perform, reachable_perform, reachable_empty.
Qed.

Lemma third_day_running : Component.running third_day.
Proof. apply Component.running_mount, two_days_reachable. Qed.


Lemma addCreditOnly_accepts_witness :
  (Form.addCreditOnly "2024-03-02 19:00:00" Confirm "2024-03-02"
     (Entered 0%Qc) "Ben" two_days = (two_days, Some AlertError))
  ∧ Form.addCreditOnly "2024-03-02 19:00:00" Cancel "2024-03-02" NotANumber
      "Ben" two_days = (two_days, None)
  ∧ (let added :=
       Form.addCreditOnly "2024-03-02 19:00:00" Confirm "2024-03-02"
         NotANumber "Ben" two_days in
     added.2 = Some AlertSuccess
     ∧ filter (λ x, ¬ has Row.date "2024-03-02" x) (rows added.1)
       = filter (λ x, ¬ has Row.date "2024-03-02" x) (rows two_days)
     ∧ (∃ r, r ∈ rows added.1 ∧ Row.date r = "2024-03-02")
     ∧ ∀ r, r ∈ rows added.1 → Row.date r = "2024-03-02" →
         Row.credit_amount r = None).
Proof.
  split.
  - apply (proj1 (addCreditOnly_accepts "2024-03-02 19:00:00" Confirm
      "2024-03-02" (Entered 0%Qc) "Ben" two_days)).
    right; left. exists 0%Qc. split; [reflexivity|]. discriminate.
  - destruct (proj2 (addCreditOnly_accepts "2024-03-02 19:00:00" Confirm
      "2024-03-02" NotANumber "Ben" two_days))
      as (Hcancel & Hok & Hother & Hnan).
    { intros [H|[(amount & H & Hle)|H]]; discriminate. }
    destruct (Hnan eq_refl) as [Hrecord Hnull].
    split; [exact Hcancel|]. intros added.
    split; [exact Hok|]. split; [exact Hother|].
    split; [exact Hrecord|exact Hnull].
Defined.

(** Beyond 2^53 the check of the sold eggs rounds: with 2^54 eggs produced
    and one broken, the available eggs are 2^54 again, and selling 2^54
    eggs is accepted. *)
Example saveDailyRecord_rounds :
  binary64 (2 ^ 54 - 1) = 2 ^ 54
  ∧ (Form.saveDailyRecord "2024-03-03 18:00:00" "2024-03-03" (Entered (2 ^ 54))
       (Entered 1) (Entered (2 ^ 54)) (Entered (Q2Qc 2)) Blank EmptyString
       two_days).2 = Some AlertSuccess.
Proof. by vm_compute. Qed.

Lemma reachable_rows_witness :
  Form.reachable exact_action any_text_days
  ∧ Row.price_per_egg <$> rows any_text_days = [None; Some 0%Qc]
  ∧ Row.credit_amount <$> rows any_text_days = [Some 0%Qc; None]
  ∧ (∀ r, r ∈ rows any_text_days → has_counts r)
  ∧ (∀ r, r ∈ rows any_text_days → in_stock r).
Proof.
  assert (∀ allowed : Form.action → Prop,
            (∀ a, exact_action a → allowed a) →
            Form.reachable allowed any_text_days) as Hreach.
  { intros allowed Hallowed.
    apply Form.reachable_perform; [by apply Hallowed|].
    apply Form.reachable_perform; [|apply Form.reachable_empty].
    apply Hallowed. by split_and!; intros n [= <-]; vm_compute. }
  destruct (reachable_rows any_text_days) as [Hcounts Hstock].
  split_and!.
  - by apply Hreach.
  - by vm_compute.
  - by vm_compute.
  - apply Hcounts. by apply Hreach.
  - apply Hstock. by apply Hreach.
Defined.

Lemma reachable_one_record_per_date_witness :
  reachable two_days
  ∧ ∀ r1 r2, r1 ∈ rows two_days → r2 ∈ rows two_days →
      Row.date r1 = Row.date r2 ∨ Row.id r1 = Row.id r2 → r1 = r2.
Proof.
  split; [exact two_days_reachable|].
  apply (reachable_one_record_per_date two_days), two_days_reachable.
Defined.

Lemma reachable_ids_never_reused_witness :
  reachable two_days
  ∧ (∀ r, r ∈ rows two_days → 1 ≤ Row.id r ≤ sqlite_sequence two_days)
  ∧ sqlite_sequence two_days
    ≤ sqlite_sequence (perform (Delete Confirm 2) two_days)
  ∧ ∀ r', r' ∈ rows (perform (Delete Confirm 2) two_days) →
      (∃ r, r ∈ rows two_days ∧ Row.id r = Row.id r'
            ∧ Row.date r = Row.date r'
            ∧ Row.created_at r = Row.created_at r')
      ∨ sqlite_sequence two_days < Row.id r'.
Proof.
  split; [exact two_days_reachable|].
  apply (reachable_ids_never_reused two_days (Delete Confirm 2)),
    two_days_reachable.
Defined.

Lemma saveDailyRecord_then_deleteRecord_witness :
  ("2024-03-03" ∉ Row.date <$> rows two_days)
  ∧ ∃ r, filter (has Row.date "2024-03-03")
           (rows (saveDailyRecord "2024-03-03 18:00:00" "2024-03-03"
                    (Some 15) None (Some 15) (Some (Q2Qc 2)) None
                    EmptyString two_days).1) = [r]
      ∧ (∀ x, x ∈ rows two_days → Row.id x < Row.id r)
      ∧ deleteRecord Confirm (Row.id r)
          (saveDailyRecord "2024-03-03 18:00:00" "2024-03-03" (Some 15) None
             (Some 15) (Some (Q2Qc 2)) None EmptyString two_days).1
        = ({| rows := rows two_days; sqlite_sequence := Row.id r |},
           Some AlertSuccess).
Proof.
  split.
  - apply (bool_decide_unpack _). vm_compute. exact I.
  - apply (saveDailyRecord_then_deleteRecord "2024-03-03 18:00:00"
             "2024-03-03" 15 None (Some 15) (Q2Qc 2) None EmptyString
             two_days).
    + apply (bool_decide_unpack _). vm_compute. exact I.
    + apply (bool_decide_unpack _). vm_compute. exact I.
Defined.

Lemma saveDailyRecord_summary_witness :
  ("2024-03-03" ∉ Row.date <$> rows two_days)
  ∧ calculateSummary
      (saveDailyRecord "2024-03-03 18:00:00" "2024-03-03" (Some 15) None
         (Some 15) (Some (Q2Qc 2)) None EmptyString two_days).1
    = {| totalProduced := totalProduced (calculateSummary two_days) + 15;
         totalBreakages :=
           totalBreakages (calculateSummary two_days) + js_or None 0;
         totalSold := totalSold (calculateSummary two_days) + js_or (Some 15) 0;
         totalCashSales :=
           (totalCashSales (calculateSummary two_days)
            + Number_of_Z (js_or (Some 15) 0%Z) * Q2Qc 2)%Qc;
         totalCredits :=
           (totalCredits (calculateSummary two_days) + js_or None 0)%Qc |}.
Proof.
  split.
  - apply (bool_decide_unpack _). vm_compute. exact I.
  - apply (saveDailyRecord_summary "2024-03-03 18:00:00" "2024-03-03" 15 None
             (Some 15) (Q2Qc 2) None EmptyString two_days).
    + apply (bool_decide_unpack _). vm_compute. exact I.
    + apply (bool_decide_unpack _). vm_compute. exact I.
Defined.

Lemma deleteRecord_summary_witness :
  unique_ids two_days
  ∧ credit_record "Ann" ∈ rows two_days
  ∧ calculateSummary two_days
    = summary_with
        (calculateSummary
           (deleteRecord Confirm (Row.id (credit_record "Ann")) two_days).1)
        (credit_record "Ann").
Proof.
  assert (unique_ids two_days) as Hids.
  { apply (bool_decide_unpack _). vm_compute. exact I. }
  assert (credit_record "Ann" ∈ rows two_days) as Hin.
  { apply list_elem_of_here. }
  split_and!; [exact Hids|exact Hin|].
  exact (deleteRecord_summary two_days (credit_record "Ann") Hids Hin).
Defined.

Lemma addCreditOnly_summary_witness :
  unique_dates two_days
  ∧ calculateSummary
      (addCreditOnly "2024-03-02 19:00:00" Confirm "2024-03-02"
         (Some (Q2Qc 4)) "Ben" two_days).1
    = {| totalProduced := totalProduced (calculateSummary two_days);
         totalBreakages := totalBreakages (calculateSummary two_days);
         totalSold := totalSold (calculateSummary two_days);
         totalCashSales := totalCashSales (calculateSummary two_days);
         totalCredits :=
           (totalCredits (calculateSummary two_days) + Q2Qc 4)%Qc |}.
Proof.
  assert (unique_dates two_days) as Hdates.
  { apply (bool_decide_unpack _). vm_compute. exact I. }
  split; [exact Hdates|].
  apply (addCreditOnly_summary "2024-03-02 19:00:00" "2024-03-02" (Q2Qc 4)
           "Ben" two_days Hdates).
  - reflexivity.
  - discriminate.
Defined.

Lemma loadDailyRecords_lists_witness :
  unique_dates two_days
  ∧ credit_record "Ann" ∈ rows two_days
  ∧ (credit_record "Ann" ∈ loadDailyRecords two_days
     ↔ (length (filter (λ x, ¬ String.le (Row.date x)
                               (Row.date (credit_record "Ann")))
                  (rows two_days)) < 30)%nat).
Proof.
  assert (unique_dates two_days) as Hdates.
  { apply (bool_decide_unpack _). vm_compute. exact I. }
  assert (credit_record "Ann" ∈ rows two_days) as Hin.
  { apply list_elem_of_here. }
  split_and!; [exact Hdates|exact Hin|].
  exact (loadDailyRecords_lists two_days (credit_record "Ann") Hdates Hin).
Defined.

Lemma update_first_issued :
  update_first ≡ₚ Schema.migrations (Schema.table_info legacy_table).
Proof.
  change (Schema.migrations (Schema.table_info legacy_table))
    with (tail update_first ++ [Schema.BackfillCreditAmount]).
  apply Permutation_cons_append.
Qed.

Lemma legacy_table_case : no_case_variant (Schema.columns legacy_table).
Proof. apply (bool_decide_unpack _). by vm_compute. Qed.


Lemma checkAndMigrateSchema_keeps_witness :
  no_case_variant (Schema.columns legacy_table)
  ∧ update_first ≡ₚ Schema.migrations (Schema.table_info legacy_table)
  ∧ (∃ added,
       Schema.columns
         (Schema.checkAndMigrateSchema_in no_numeric_text update_first
            legacy_table).1
       = Schema.columns legacy_table ++ added
       ∧ added ≡ₚ filter (λ c, c ∉ Schema.columns legacy_table)
                    ["sold_eggs"; "credit_amount"; "credit_name"])
  ∧ length (Schema.rows
              (Schema.checkAndMigrateSchema_in no_numeric_text update_first
                 legacy_table).1)
    = length (Schema.rows legacy_table).
Proof.
  destruct (checkAndMigrateSchema_keeps no_numeric_text legacy_table
              update_first legacy_table_case update_first_issued)
    as (Hcolumns & _ & Hlength & _).
  split_and!;
    [exact legacy_table_case|exact update_first_issued|exact Hcolumns|
     exact Hlength].
Defined.




Lemma saveDailyRecord_form_witness :
  let s := foldl (λ s e, Component.handle e s) third_day (take 3 evening) in
  let s1 := (Component.saveDailyRecord "2024-03-03 18:00:00" s).1 in
  (Component.saveDailyRecord "2024-03-03 18:00:00" s).2 = Some AlertSuccess
  ∧ Component.date s1 = Component.date s
  ∧ Component.producedEggs s1 = None ∧ Component.breakages s1 = None
  ∧ Component.soldEggs s1 = None ∧ Component.pricePerEgg s1 = None
  ∧ Component.creditAmount s1 = None
  ∧ Component.creditName s1 = EmptyString
  ∧ Component.saveDailyRecord "2024-03-03 18:00:01" s1 = (s1, Some AlertError).
Proof.
  split; [reflexivity|].
  apply (proj2 (saveDailyRecord_form "2024-03-03 18:00:00"
                  "2024-03-03 18:00:01"
                  (foldl (λ s e, Component.handle e s) third_day
                     (take 3 evening)))).
  reflexivity.
Defined.

Lemma addCreditOnly_form_witness :
  let s := foldl (λ s e, Component.handle e s) third_day (take 6 evening) in
  let s1 := (Component.addCreditOnly "2024-03-03 19:00:00" Confirm s).1 in
  (Component.addCreditOnly "2024-03-03 19:00:00" Confirm s).2
  = Some AlertSuccess
  ∧ Component.date s1 = Component.date s
  ∧ Component.producedEggs s1 = Component.producedEggs s
  ∧ Component.breakages s1 = Component.breakages s
  ∧ Component.soldEggs s1 = Component.soldEggs s
  ∧ Component.pricePerEgg s1 = Component.pricePerEgg s
  ∧ Component.creditAmount s1 = None
  ∧ Component.creditName s1 = EmptyString
  ∧ Component.addCreditOnly "2024-03-03 19:00:01" Confirm s1
    = (s1, Some AlertError).
Proof.
  split; [reflexivity|].
  apply (proj2 (addCreditOnly_form "2024-03-03 19:00:00"
                  "2024-03-03 19:00:01" Confirm Confirm
                  (foldl (λ s e, Component.handle e s) third_day
                     (take 6 evening)))).
  reflexivity.
Defined.

Lemma deleteRecord_listed_witness :
  Component.running third_day
  ∧ credit_record "Ann" ∈ Component.dailyRecords third_day
  ∧ ∃ before after,
      rows (Component.db third_day) = before ++ credit_record "Ann" :: after
      ∧ rows (Component.db
                (Component.deleteRecord Confirm
                   (Row.id (credit_record "Ann")) third_day).1)
        = before ++ after
      ∧ (credit_record "Ann"
         ∉ rows (Component.db
                   (Component.deleteRecord Confirm
                      (Row.id (credit_record "Ann")) third_day).1))
      ∧ (credit_record "Ann"
         ∉ Component.dailyRecords
             (Component.deleteRecord Confirm
                (Row.id (credit_record "Ann")) third_day).1)
      ∧ (Component.deleteRecord Confirm (Row.id (credit_record "Ann"))
           third_day).2 = Some AlertSuccess.
Proof.
  assert (credit_record "Ann" ∈ Component.dailyRecords third_day) as Hin.
  { vm_compute. apply list_elem_of_further, list_elem_of_here. }
  split_and!; [exact third_day_running|exact Hin|].
  exact (deleteRecord_listed third_day (credit_record "Ann")
           third_day_running Hin).
Defined.

Lemma keyExtractor_distinct_witness :
  Component.running third_day
  ∧ NoDup (Row.id <$> Component.dailyRecords third_day)
  ∧ NoDup (Row.date <$> Component.dailyRecords third_day).
Proof.
  split; [exact third_day_running|].
  exact (keyExtractor_distinct third_day third_day_running).
Defined.
